(** * The SPARQL-bindings-to-graph converter of [test_visualization_fix.py]

    A shallow embedding of the converter ([convert_sparql_to_graph] and its
    classification helpers) and of the three checks run by [main], with the
    properties of the written specification stated and proved over it.

    Conventions of the embedding:
    - a Python [str] is a Rocq [string]; a character is a code point below
      256, on which [str.lower] is the per-character map [lower_char];
    - the JSON row [binding] is a [gmap string (gmap string string)]:
      variable name, then attribute name, then string value;
    - the insertion-ordered dict [nodes] is an association list ([ODict.t]);
    - HTTP is an oracle giving the outcome of the n-th request, and the
      checks run in a state monad over the request counter and the trace. *)

From Stdlib Require Import String Ascii ZArith Lia Bool.
From stdpp Require Import base option list strings gmap.

Open Scope string_scope.
Open Scope list_scope.

(** ** Python string primitives *)

Module PyStr.

(** [len(s)] *)
Definition len (s : string) : nat := String.length s.

(** Truthiness of a [str]: non-empty. *)
Definition truthy (s : string) : bool := negb (len s =? 0)%nat.

(** [s.startswith(p)] *)
Definition startswith (p s : string) : bool := String.prefix p s.

(** [needle in s]: some suffix of [s] starts with [needle]. *)
Fixpoint contains (needle s : string) : bool :=
  String.prefix needle s ||
  match s with
  | EmptyString => false
  | String _ s' => contains needle s'
  end.

(** [s[:n]] for a non-negative [n]. *)
Fixpoint slice_to (n : nat) (s : string) : string :=
  match n, s with
  | S n', String c s' => String c (slice_to n' s')
  | _, _ => EmptyString
  end.

(** [s.split(sep)] for a one-character separator, the only form the
    source uses ([split('#')], [split('/')]). *)
Fixpoint split (sep : ascii) (s : string) : list string :=
  match s with
  | EmptyString => [EmptyString]
  | String c s' =>
      if Ascii.eqb c sep then EmptyString :: split sep s'
      else match split sep s' with
           | piece :: rest => String c piece :: rest
           | [] => [String c EmptyString]
           end
  end.

(** [l[-1]] on the list returned by [split], which is never empty. *)
Definition last_piece (l : list string) : string := List.last l EmptyString.

(** [s.replace(old, new)] for a non-empty [old]: scan from the left; at an
    occurrence of [old] emit [new] and skip the occurrence. [skip] counts the
    characters of the current occurrence still to be passed over. *)
Fixpoint replace_from (old new : string) (skip : nat) (s : string) : string :=
  match s with
  | EmptyString => EmptyString
  | String c s' =>
      match skip with
      | S k => replace_from old new k s'
      | O =>
          if String.prefix old s
          then new +:+ replace_from old new (len old - 1) s'
          else String c (replace_from old new 0 s')
      end
  end.

Definition replace (old new s : string) : string := replace_from old new 0 s.

(** [str.lower] on one character (code points below 256): the capitals
    A..Z and the capitals of the upper half, U+00C0..U+00DE without the
    multiplication sign U+00D7, move up by 32. *)
Definition lower_char (c : ascii) : ascii :=
  let n := nat_of_ascii c in
  if ((65 <=? n) && (n <=? 90) ||
      (192 <=? n) && (n <=? 222) && negb (n =? 215))%nat
  then ascii_of_nat (n + 32)
  else c.

(** [s.lower()] *)
Fixpoint lower (s : string) : string :=
  match s with
  | EmptyString => EmptyString
  | String c s' => String (lower_char c) (lower s')
  end.

End PyStr.

(** ** Classification helpers *)

(** [get_node_name(uri)] *)
Definition get_node_name (uri : string) : string :=
  if PyStr.startswith "ex:" uri then
    PyStr.replace "resource" "Resource " (PyStr.replace "ex:" "" uri)
  else if PyStr.contains "#" uri then
    PyStr.last_piece (PyStr.split "#" uri)
  else if PyStr.contains "/" uri then
    PyStr.last_piece (PyStr.split "/" uri)
  else if (30 <? PyStr.len uri)%nat then PyStr.slice_to 30 uri +:+ "..."
  else uri.

(** [get_node_type(uri)] *)
Definition get_node_type (uri : string) : string :=
  let uri_lower := PyStr.lower uri in
  if PyStr.contains "product" uri_lower then "product"
  else if PyStr.contains "location" uri_lower then "location"
  else if PyStr.contains "event" uri_lower then "event"
  else if PyStr.contains "business" uri_lower then "business"
  else "resource".

(** The literal dict [groups] of [get_node_group]. *)
Definition groups : gmap string Z :=
  <["product" := 1%Z]> (<["location" := 2%Z]>
    (<["event" := 3%Z]> (<["business" := 4%Z]> ∅))).

(** [get_node_group(uri)]: [groups.get(node_type, 0)] *)
Definition get_node_group (uri : string) : Z :=
  let node_type := get_node_type uri in
  default 0%Z (groups !! node_type).

(** [get_edge_type(predicate)] *)
Definition get_edge_type (predicate : string) : string :=
  let predicate_lower := PyStr.lower predicate in
  if PyStr.contains "type" predicate_lower then "type"
  else if PyStr.contains "has" predicate_lower then "has"
  else "relationship".

(** [get_edge_label(predicate)] *)
Definition get_edge_label (predicate : string) : string :=
  if PyStr.contains "#" predicate then
    PyStr.last_piece (PyStr.split "#" predicate)
  else if (20 <? PyStr.len predicate)%nat
       then PyStr.slice_to 20 predicate +:+ "..."
       else predicate.

(** ** Data model *)

(** One query-result row: variable name to [{attribute: string}]. *)
Abbreviation binding := (gmap string (gmap string string)).

(** [binding.get(var, {}).get('value')] *)
Definition get_value (b : binding) (var : string) : option string :=
  default ∅ (b !! var) !! "value".

(** Truthiness of the result of [.get('value')]: [None] and [''] are falsy. *)
Definition truthy (v : option string) : bool :=
  match v with
  | Some s => PyStr.truthy s
  | None => false
  end.

(** The dict literal stored under a URI in [nodes]. *)
Record Node := mkNode {
  n_id : string;
  n_name : string;
  n_type : string;
  n_group : Z
}.

(** The dict literal appended to [links]. *)
Record Link := mkLink {
  l_source : string;
  l_target : string;
  l_type : string;
  l_label : string
}.

(** The returned dict [{'nodes': ..., 'links': ...}]. *)
Record Graph := mkGraph {
  nodes : list Node;
  links : list Link
}.

(** ** Insertion-ordered dict *)

Module ODict.
Section odict.
Context {V : Type}.

Definition t := list (string * V).

Definition empty : t := [].

(** [k in d] *)
Fixpoint mem (k : string) (d : t) : bool :=
  match d with
  | [] => false
  | (k', _) :: d' => String.eqb k' k || mem k d'
  end.

(** [d.get(k)] *)
Fixpoint get (k : string) (d : t) : option V :=
  match d with
  | [] => None
  | (k', v) :: d' => if String.eqb k' k then Some v else get k d'
  end.

(** [d[k] = v]: an existing key keeps its position and takes the new
    value; a new key goes to the end. *)
Fixpoint set (k : string) (v : V) (d : t) : t :=
  match d with
  | [] => [(k, v)]
  | (k', v') :: d' =>
      if String.eqb k' k then (k', v) :: d' else (k', v') :: set k v d'
  end.

(** [d.keys()] and [d.values()], in insertion order. *)
Definition keys (d : t) : list string := d.*1.
Definition values (d : t) : list V := d.*2.
End odict.
Arguments t : clear implicits.
End ODict.

(** ** The converter *)

(** The node built for a URI on first sight. *)
Definition make_node (uri : string) : Node :=
  {| n_id := uri;
     n_name := get_node_name uri;
     n_type := get_node_type uri;
     n_group := get_node_group uri |}.

(** The link built for a qualifying binding. *)
Definition make_link (subject predicate object : string) : Link :=
  {| l_source := subject;
     l_target := object;
     l_type := get_edge_type predicate;
     l_label := get_edge_label predicate |}.

(** The two locals [nodes] and [links] of [convert_sparql_to_graph]. *)
Definition conv_state : Type := ODict.t Node * list Link.

(** [if k not in nodes: nodes[k] = {...}] *)
Definition add_node (uri : string) (ns : ODict.t Node) : ODict.t Node :=
  if negb (ODict.mem uri ns) then ODict.set uri (make_node uri) ns else ns.

(** One iteration of the [for binding in bindings] loop. *)
Definition loop_body (st : conv_state) (b : binding) : conv_state :=
  let '(ns, ls) := st in
  let subject := get_value b "s" in
  let predicate := get_value b "p" in
  let object := get_value b "o" in
  if truthy subject && truthy predicate && truthy object then
    match subject, predicate, object with
    | Some s, Some p, Some o =>
        let ns := add_node s ns in
        let ns := add_node o ns in
        (ns, ls ++ [make_link s p o])
    | _, _, _ => st
    end
  else st.

(** The loop, from any state of the two locals. *)
Definition convert_loop (bindings : list binding) (st : conv_state) : conv_state :=
  fold_left loop_body bindings st.

(** [convert_sparql_to_graph(bindings)] *)
Definition convert_sparql_to_graph (bindings : list binding) : Graph :=
  let '(ns, ls) := convert_loop bindings (ODict.empty, []) in
  {| nodes := ODict.values ns; links := ls |}.

(** The keys of the dict [nodes] when the loop ends. *)
Definition final_node_keys (bindings : list binding) : list string :=
  ODict.keys (convert_loop bindings (ODict.empty, [])).1.

(** ** The claims' vocabulary, in the specification's words *)

(** The value of the variable [var] of a binding, when it is present. *)
Definition value_of (b : binding) (var : string) : option string :=
  b !! var ≫= λ attrs, attrs !! "value".

(** A value that is present and is a non-empty string. *)
Definition present_nonempty (v : option string) : Prop :=
  ∃ s : string, v = Some s ∧ s ≠ "".

#[global] Instance present_nonempty_dec v : Decision (present_nonempty v).
Proof.
  destruct v as [s|].
  - destruct (decide (s = "")) as [Heq|Hne].
    + right. intros (s' & Hs' & Hne). apply Hne. congruence.
    + left. exists s. split; [reflexivity | exact Hne].
  - right. intros (s' & Hs' & _). discriminate Hs'.
Defined.

(** A binding qualifies when the values of [s], [p] and [o] are all present
    and are non-empty strings. *)
Definition qualifying (b : binding) : Prop :=
  present_nonempty (value_of b "s") ∧
  present_nonempty (value_of b "p") ∧
  present_nonempty (value_of b "o").

#[global] Instance qualifying_dec b : Decision (qualifying b).
Proof. unfold qualifying. apply _. Defined.

(** The link a binding stands for, when it carries a whole triple. *)
Definition link_of (b : binding) : option Link :=
  s ← value_of b "s"; p ← value_of b "p"; o ← value_of b "o";
  Some (make_link s p o).

(** The URI [u] is the subject or the object of a qualifying binding of
    the list. *)
Definition appears_in (u : string) (bindings : list binding) : Prop :=
  ∃ b, b ∈ bindings ∧ qualifying b ∧
       (value_of b "s" = Some u ∨ value_of b "o" = Some u).

(** The number of nodes of a list that carry the id [u]. *)
Definition node_entries (u : string) (ns : list Node) : nat :=
  length (filter (λ n, n_id n = u) ns).

(** [needle] occurs in [s]. *)
Definition occurs_in (needle s : string) : Prop :=
  ∃ pre post : string, s = pre +:+ needle +:+ post.

(** [r] is what follows the last occurrence of the character [c] in [s]. *)
Definition after_last (c : ascii) (s r : string) : Prop :=
  (∃ pre : string, s = pre +:+ String c r) ∧ ¬ occurs_in (String c "") r.

(** The first [n] characters of [s] followed by an ellipsis when [s] is
    longer than [n], else [s]. *)
Definition truncated (n : nat) (s r : string) : Prop :=
  if decide (n < String.length s)%nat
  then ∃ head rest : string,
         s = head +:+ rest ∧ String.length head = n ∧ r = head +:+ "..."
  else r = s.

(** ** The checks and their effects *)

(** What a call of [requests.get] or [requests.post] gives back: an
    exception, or a response with its status code. [json] is the list under
    [data['results']['bindings']] of the decoded body, and [None] when
    [response.json()] or one of the two subscripts raises. *)
Inductive http_outcome :=
| Raised
| Responded (status_code : Z) (json : option (list binding)).

(** The lines printed by the script, one constructor per [print]. *)
Inductive output :=
| OutSparqlTesting
| OutSparqlWorking (results : nat)
| OutSparqlFailed (status_code : Z)
| OutSparqlError
| OutStaticTesting
| OutStaticServing
| OutStaticFailed (status_code : Z)
| OutStaticError
| OutConvTesting
| OutConvConverting (bindings : nat)
| OutConvSuccessful
| OutConvNodes (n : nat)
| OutConvLinks (n : nat)
| OutSampleNodes
| OutSampleNode (i : nat) (name type : string)
| OutSampleLinks
| OutSampleLink (i : nat) (source target label : string)
| OutMainTesting
| OutRule
| OutResults
| OutStaticResult (ok : bool)
| OutSparqlResult (ok : bool)
| OutConvResult (ok : bool)
| OutAllPassed
| OutVisit
| OutSomeFailed.

Inductive event :=
| HttpGet (url : string)
| HttpPost (url query : string)
| Print (line : output).

(** The number of requests served so far and everything done so far. *)
Record world := mkWorld {
  served : nat;
  trace : list event
}.

Definition M (A : Type) : Type := world → A * world.

#[global] Instance M_ret : MRet M := λ A a w, (a, w).

#[global] Instance M_bind : MBind M :=
  λ A B f m w, let '(a, w') := m w in f a w'.

Definition print (line : output) : M unit :=
  λ w, (tt, {| served := served w; trace := trace w ++ [Print line] |}).


(** [enumerate(l)] *)
Definition enumerate {A} (l : list A) : list (nat * A) :=
  zip (seq 0 (length l)) l.



Definition sparql_url : string := "http://localhost:8082/api/v1/sparql/query".
Definition sparql_query : string := "SELECT * WHERE { ?s ?p ?o } LIMIT 15".
Definition static_url : string := "http://localhost:8082/static/working_version.html".

Section Checks.
(** The outcome of the n-th request issued. *)
Variable env : nat → http_outcome.

Definition request (e : event) : M http_outcome :=
  λ w, (env (served w),
        {| served := S (served w); trace := trace w ++ [e] |}).

(** [test_sparql_api()] *)
Definition test_sparql_api : M (option (list binding)) :=
  print OutSparqlTesting ;;
  response ← request (HttpPost sparql_url sparql_query);
  match response with
  | Raised => print OutSparqlError ;; mret None
  | Responded status_code json =>
      if (status_code =? 200)%Z then
        match json with
        | Some bindings =>
            print (OutSparqlWorking (length bindings)) ;;
            mret (Some bindings)
        | None => print OutSparqlError ;; mret None
        end
      else print (OutSparqlFailed status_code) ;; mret None
  end.

(** [test_static_files()] *)
Definition test_static_files : M bool :=
  print OutStaticTesting ;;
  response ← request (HttpGet static_url);
  match response with
  | Raised => print OutStaticError ;; mret false
  | Responded status_code _ =>
      if (status_code =? 200)%Z then print OutStaticServing ;; mret true
      else print (OutStaticFailed status_code) ;; mret false
  end.


End Checks.

(** The requests among the events of a trace, in order. *)
Definition is_request (e : event) : bool :=
  match e with
  | Print _ => false
  | _ => true
  end.

Definition requests_of (tr : list event) : list event :=
  List.filter is_request tr.


(** What [test_sparql_api] returns on the outcome of its request. *)
Definition sparql_result (o : http_outcome) : option (list binding) :=
  match o with
  | Responded status_code json => if (status_code =? 200)%Z then json else None
  | Raised => None
  end.

(** What [test_static_files] returns on the outcome of its request. *)
Definition static_result (o : http_outcome) : bool :=
  match o with
  | Responded status_code _ => (status_code =? 200)%Z
  | Raised => false
  end.

(** From [w] to [w'] the requests [reqs] were issued, in this order, and
    nothing else reached the network. *)
Definition extends_by (reqs : list event) (w w' : world) : Prop :=
  served w' = served w + length reqs ∧
  requests_of (trace w') = requests_of (trace w) ++ reqs.

(** Run in [w], the computation [m] returns [a] after issuing [reqs]. *)
Definition runs {A} (m : M A) (w : world) (a : A) (reqs : list event) : Prop :=
  ∃ w', m w = (a, w') ∧ extends_by reqs w w'.


(** The bindings of the specification's worked example. *)
Definition example_bindings : list binding :=
  [ {[ "s" := {[ "value" := "ex:resource1" ]};
       "p" := {[ "value" := "ex:hasType" ]};
       "o" := {[ "value" := "ex:Product" ]} ]} ].


(** A binding without object, and one whose subject is the empty string. *)
Definition object_absent : binding :=
  {[ "s" := {[ "value" := "ex:resource2" ]};
     "p" := {[ "value" := "ex:hasPart" ]} ]}.

Definition subject_empty : binding :=
  {[ "s" := {[ "value" := "" ]};
     "p" := {[ "value" := "ex:hasPart" ]};
     "o" := {[ "value" := "ex:Location" ]} ]}.

(** [s] begins with [p]. *)
Definition begins_with (p s : string) : Prop := ∃ rest : string, s = p +:+ rest.

(** Every entry of the dict [nodes] sits under the id it carries. *)
Definition well_keyed (ns : ODict.t Node) : Prop :=
  Forall (λ kn, n_id kn.2 = kn.1) ns.

(** Both ends of every link are keys of the dict [nodes]. *)
Definition links_closed (ns : ODict.t Node) (ls : list Link) : Prop :=
  Forall (λ l, l_source l ∈ ODict.keys ns ∧ l_target l ∈ ODict.keys ns) ls.

(** Every entry of the dict [nodes] is the node built from its key. *)
Definition canonical (ns : ODict.t Node) : Prop :=
  Forall (λ kn, kn.2 = make_node kn.1) ns.

(** The subjects and objects of the qualifying bindings, in the order the
    loop meets them: binding by binding, subject before object. *)
Definition endpoints (bindings : list binding) : list string :=
  b ← filter qualifying bindings;
  match value_of b "s", value_of b "o" with
  | Some s, Some o => [s; o]
  | _, _ => []
  end.

(** A list without its repetitions: each element stays where it first
    comes. *)
Fixpoint first_occurrences (l : list string) : list string :=
  match l with
  | [] => []
  | x :: l' => x :: filter (λ y, y ≠ x) (first_occurrences l')
  end.

(** ** [debug_sparql.py] *)

Module DebugSparql.

(** The decoded body of the response, a JSON object: the entries printed
    by the script ([None] when the key is missing, as [dict.get] gives) and
    the list [data.get('results', {}).get('bindings', [])] looks for
    ([None] when ['results'] or ['bindings'] is missing). *)
Record reply := mkReply {
  r_status : option string;
  r_query_type : option string;
  r_execution_time_ms : option string;
  r_bindings : option (list binding)
}.

(** What the one [requests.post] of the script, followed by
    [response.json()], gives: an exception from either, or the body. The
    status code is never read. *)
Inductive outcome :=
| PostFailed
| PostDecoded (status_code : Z) (data : reply).

(** The lines printed, one constructor per [print]. *)
Inductive line :=
| LineResults
| LineStatus (v : option string)
| LineQueryType (v : option string)
| LineExecutionTime (v : option string)
| LineNumber (n : nat)
| LineSamples
| LineSample (i : nat) (s p o : string)
| LineAnalysis
| LineEpcis (found : bool)
| LineRealUris (found : bool)
| LineSuccess
| LineSomeReal
| LineMock
| LineError.

(** [binding.get(var, {}).get('value', dflt)] *)
Definition value_or (b : binding) (var dflt : string) : string :=
  default dflt (default ∅ (b !! var) !! "value").

(** The body of the generator of [has_epcis]. *)
Definition mentions_epcis (b : binding) : bool :=
  PyStr.contains "epcis" (PyStr.lower (value_or b "s" "")) ||
  PyStr.contains "epcis" (PyStr.lower (value_or b "p" "")) ||
  PyStr.contains "epcis" (PyStr.lower (value_or b "o" "")) ||
  PyStr.contains "cbv" (PyStr.lower (value_or b "s" "")) ||
  PyStr.contains "cbv" (PyStr.lower (value_or b "p" "")) ||
  PyStr.contains "cbv" (PyStr.lower (value_or b "o" "")).

(** The body of the generator of [has_real_uris]. *)
Definition looks_real (b : binding) : bool :=
  negb (PyStr.startswith "ex:resource" (value_or b "s" "")) &&
  negb (PyStr.startswith "ex:" (value_or b "p" "")) &&
  negb (PyStr.startswith "value" (value_or b "o" "")).

(** [any(... for binding in bindings)] *)
Definition has_epcis (bindings : list binding) : bool :=
  existsb mentions_epcis bindings.

Definition has_real_uris (bindings : list binding) : bool :=
  existsb looks_real bindings.

(** The line printed for one of the first five bindings. *)
Definition sample_line (ib : nat * binding) : line :=
  let '(i, b) := ib in
  LineSample (i + 1) (value_or b "s" "N/A") (value_or b "p" "N/A")
    (value_or b "o" "N/A").

(** [test_real_data()], on the outcome of its request: what it returns and
    what it prints. *)
Definition test_real_data (o : outcome) : bool * list line :=
  match o with
  | PostFailed => (false, [LineError])
  | PostDecoded _ data =>
      let bindings := default [] (r_bindings data) in
      let epcis := has_epcis bindings in
      let real_uris := has_real_uris bindings in
      (epcis && real_uris,
       [LineResults; LineStatus (r_status data);
        LineQueryType (r_query_type data);
        LineExecutionTime (r_execution_time_ms data);
        LineNumber (length bindings); LineSamples] ++
       (sample_line <$> enumerate (take 5 bindings)) ++
       [LineAnalysis; LineEpcis epcis; LineRealUris real_uris;
        if epcis && real_uris then LineSuccess
        else if real_uris then LineSomeReal
        else LineMock])
  end.

Definition is_sample (l : line) : bool :=
  match l with
  | LineSample _ _ _ _ => true
  | _ => false
  end.

(** The value of one of [s], [p], [o] of the binding holds ["epcis"] or
    ["cbv"], whatever the case of its letters. *)
Definition epcis_term_in (b : binding) : Prop :=
  ∃ var term, var ∈ ["s"; "p"; "o"] ∧ term ∈ ["epcis"; "cbv"] ∧
    occurs_in term (PyStr.lower (value_or b var "")).

(** The binding does not have the shape of the sample data: its subject
    does not begin with ["ex:resource"], its predicate not with ["ex:"],
    its object not with ["value"]. *)
Definition not_sample_shaped (b : binding) : Prop :=
  ¬ begins_with "ex:resource" (value_or b "s" "") ∧
  ¬ begins_with "ex:" (value_or b "p" "") ∧
  ¬ begins_with "value" (value_or b "o" "").

End DebugSparql.



(** A binding from a URI to itself. *)
Definition self_binding : binding :=
  {[ "s" := {[ "value" := "urn:epc:id:sgln:0614141.00777.0" ]};
     "p" := {[ "value" := "http://www.w3.org/2002/07/owl#sameAs" ]};
     "o" := {[ "value" := "urn:epc:id:sgln:0614141.00777.0" ]} ]}.

(** A binding of an EPCIS store. *)
Definition epcis_binding : binding :=
  {[ "s" := {[ "value" := "urn:epc:id:sgtin:0614141.107346.2017" ]};
     "p" := {[ "value" := "http://www.w3.org/1999/02/22-rdf-syntax-ns#type" ]};
     "o" := {[ "value" := "https://ns.gs1.org/epcis/ObjectEvent" ]} ]}.

(** * Properties *)

(** ** Strings *)

Section string_facts.
#[local] Arguments String.append !_ _ / : simpl nomatch.
Implicit Types (s t r pre post needle : string) (c a : ascii).

Lemma append_empty_r s : s +:+ "" = s.
Proof. induction s as [|a s IH]; simpl; [reflexivity | f_equal; exact IH]. Qed.

Lemma append_assoc s t r : (s +:+ t) +:+ r = s +:+ t +:+ r.
Proof. induction s as [|a s IH]; simpl; [reflexivity | f_equal; exact IH]. Qed.

Lemma length_append s t :
  String.length (s +:+ t) = (String.length s + String.length t)%nat.
Proof. induction s as [|a s IH]; simpl; [reflexivity | f_equal; exact IH]. Qed.

(** [startswith] holds exactly of the strings that begin with the prefix. *)
Lemma startswith_spec p s :
  PyStr.startswith p s = true ↔ begins_with p s.
Proof.
  unfold PyStr.startswith, begins_with. revert s.
  induction p as [|a p IH]; intros s; simpl.
  - split; [intros _; by exists s | intros _; by destruct s].
  - destruct s as [|b s]; simpl.
    + split; [discriminate | intros (rest & Hrest); discriminate].
    + destruct (ascii_dec a b) as [->|Hab].
      * rewrite IH. split; intros (rest & Hrest); exists rest.
        -- by rewrite Hrest.
        -- by injection Hrest.
      * split; [discriminate | intros (rest & Hrest)].
        injection Hrest as Hb _. congruence.
Qed.

Lemma occurs_in_empty needle : occurs_in needle "" ↔ needle = "".
Proof.
  split.
  - intros (pre & post & H). destruct pre; [|discriminate].
    simpl in H. destruct needle; [reflexivity | discriminate].
  - intros ->. by exists "", "".
Qed.

Lemma occurs_in_cons needle a s :
  occurs_in needle (String a s) ↔
  begins_with needle (String a s) ∨ occurs_in needle s.
Proof.
  split.
  - intros (pre & post & H). destruct pre as [|b pre]; simpl in H.
    + left. by exists post.
    + right. injection H as _ H. by exists pre, post.
  - intros [(rest & H)|(pre & post & H)].
    + by exists "", rest.
    + exists (String a pre), post. simpl. by rewrite H.
Qed.

(** [needle in s] holds exactly when [needle] occurs in [s]. *)
Lemma contains_spec needle s :
  PyStr.contains needle s = true ↔ occurs_in needle s.
Proof.
  induction s as [|a s IH].
  - rewrite occurs_in_empty. simpl. rewrite orb_false_r.
    destruct needle; simpl; split; congruence.
  - rewrite occurs_in_cons, <- IH.
    change (PyStr.contains needle (String a s))
      with (PyStr.startswith needle (String a s) || PyStr.contains needle s).
    rewrite orb_true_iff, startswith_spec. reflexivity.
Qed.

Lemma contains_false needle s :
  PyStr.contains needle s = false ↔ ¬ occurs_in needle s.
Proof.
  rewrite <- contains_spec. destruct (PyStr.contains needle s); split; done.
Qed.

Lemma occurs_char_cons c a s :
  occurs_in (String c "") (String a s) ↔ a = c ∨ occurs_in (String c "") s.
Proof.
  rewrite occurs_in_cons. split.
  - intros [(rest & H)|H]; [left | by right]. simpl in H. congruence.
  - intros [->|H]; [left | by right]. by exists s.
Qed.

Lemma split_nonempty c s : PyStr.split c s ≠ [].
Proof.
  destruct s as [|a s]; simpl; [done|].
  destruct (Ascii.eqb a c); [done|]. by destruct (PyStr.split c s).
Qed.

(** The pieces of [split]: the first holds no separator; with one piece
    the string is that piece, with more the string ends in the separator
    followed by the last piece, which holds no separator either. *)
Lemma split_shape c s :
  ∃ hd tl, PyStr.split c s = hd :: tl ∧
    ¬ occurs_in (String c "") hd ∧
    ¬ occurs_in (String c "") (List.last (hd :: tl) "") ∧
    (tl = [] → s = hd) ∧
    (tl ≠ [] → ∃ pre, s = pre +:+ String c (List.last tl "")).
Proof.
  induction s as [|a s (hd & tl & Hsplit & Hhd & Hlast & Hone & Hmore)].
  - exists "", []. simpl. rewrite occurs_in_empty. repeat split; try done.
  - simpl. rewrite Hsplit. destruct (Ascii.eqb_spec a c) as [->|Hac].
    + exists "", (hd :: tl). rewrite occurs_in_empty.
      split_and!; try done.
      intros _. destruct tl as [|x tl].
      * exists "". simpl. by rewrite (Hone eq_refl).
      * destruct Hmore as (pre & Hpre); [done|].
        exists (String c pre). simpl. by rewrite Hpre.
    + exists (String a hd), tl.
      assert (¬ occurs_in (String c "") (String a hd)) as Hahd.
      { rewrite occurs_char_cons. intros [?|?]; [by apply Hac | by apply Hhd]. }
      split_and!; try done.
      * destruct tl as [|x tl]; [done | exact Hlast].
      * intros ->. by rewrite (Hone eq_refl).
      * intros Htl. destruct (Hmore Htl) as (pre & Hpre).
        exists (String a pre). simpl. by rewrite Hpre.
Qed.

(** [s.split(c)[-1]] is what follows the last [c] of a string holding one. *)
Lemma last_piece_after_last c s :
  occurs_in (String c "") s →
  after_last c s (PyStr.last_piece (PyStr.split c s)).
Proof.
  intros Hocc.
  destruct (split_shape c s) as (hd & tl & Hsplit & Hhd & Hlast & Hone & Hmore).
  unfold PyStr.last_piece, after_last. rewrite Hsplit.
  destruct tl as [|x tl].
  - rewrite (Hone eq_refl) in Hocc. by destruct Hhd.
  - split; [|exact Hlast]. destruct Hmore as (pre & Hpre); [done|].
    by exists pre.
Qed.

Lemma slice_to_split n s :
  (n ≤ String.length s)%nat →
  ∃ rest, s = PyStr.slice_to n s +:+ rest ∧
          String.length (PyStr.slice_to n s) = n.
Proof.
  revert s. induction n as [|n IH]; intros s Hn.
  - exists s. by destruct s.
  - destruct s as [|a s]; simpl in Hn; [lia|].
    destruct (IH s) as (rest & Hrest & Hlen); [lia|].
    exists rest. simpl. by rewrite <- Hrest, Hlen.
Qed.

(** [s[:n] + '...' if len(s) > n else s] is the truncation of [s]. *)
Lemma truncate_spec n s :
  truncated n s
    (if (n <? PyStr.len s)%nat then PyStr.slice_to n s +:+ "..." else s).
Proof.
  unfold truncated, PyStr.len.
  destruct (Nat.ltb_spec n (String.length s)) as [Hlt|Hge].
  - rewrite decide_True by done.
    destruct (slice_to_split n s) as (rest & Hrest & Hlen); [lia|].
    by exists (PyStr.slice_to n s), rest.
  - rewrite decide_False by lia. reflexivity.
Qed.
End string_facts.

(** ** [str.replace] where it changes little *)

Section replace_facts.
#[local] Arguments String.append !_ _ / : simpl nomatch.
Implicit Types (s old new rest : string).

Lemma replace_absent old new s :
  ¬ occurs_in old s → PyStr.replace old new s = s.
Proof.
  unfold PyStr.replace. induction s as [|a s IH]; intros Hno; [reflexivity|].
  rewrite occurs_in_cons in Hno. cbn [PyStr.replace_from].
  destruct (String.prefix old (String a s)) eqn:Hpre.
  - destruct Hno. left. by apply startswith_spec.
  - f_equal. apply IH. intros Hocc. apply Hno. by right.
Qed.

Lemma replace_marker_head rest :
  PyStr.replace "ex:" "" ("ex:" +:+ rest) = PyStr.replace "ex:" "" rest.
Proof.
  unfold PyStr.replace. simpl.
  destruct rest; reflexivity.
Qed.
End replace_facts.

(** ** The classification helpers *)

(** C4, as stated, fails: on ["ex:resource1"] the marker ["ex:"] is present,
    yet the name returned is not the URI with the marker stripped, which
    would be ["resource1"]; it is ["Resource 1"]. *)
Lemma C4_marker_not_merely_stripped :
  begins_with "ex:" "ex:resource1" ∧
  get_node_name "ex:resource1" = "Resource 1" ∧
  "ex:resource1" ≠ "ex:" +:+ get_node_name "ex:resource1".
Proof.
  split; [by exists "resource1"|]. split; [reflexivity|].
  vm_compute. discriminate.
Qed.

(** C4, amended: for every URI, [get_node_name] returns, when the URI begins
    with the marker ["ex:"], the URI with every ["ex:"] removed and then every
    ["resource"] replaced by ["Resource "] (so the URI with the marker
    stripped when what follows the marker holds neither); otherwise what
    follows the last ['#'] if the URI holds one; otherwise what follows the
    last ['/'] if it holds one; otherwise the URI itself, cut to 30
    characters and followed by ["..."] when it is longer than 30. *)
Theorem C4_get_node_name (uri : string) :
  (begins_with "ex:" uri →
     get_node_name uri =
       PyStr.replace "resource" "Resource " (PyStr.replace "ex:" "" uri)) ∧
  (∀ rest, uri = "ex:" +:+ rest →
     ¬ occurs_in "ex:" rest → ¬ occurs_in "resource" rest →
     get_node_name uri = rest) ∧
  (¬ begins_with "ex:" uri → occurs_in "#" uri →
     after_last "#" uri (get_node_name uri)) ∧
  (¬ begins_with "ex:" uri → ¬ occurs_in "#" uri → occurs_in "/" uri →
     after_last "/" uri (get_node_name uri)) ∧
  (¬ begins_with "ex:" uri → ¬ occurs_in "#" uri → ¬ occurs_in "/" uri →
     truncated 30 uri (get_node_name uri)).
Proof.
  assert (begins_with "ex:" uri →
          get_node_name uri =
            PyStr.replace "resource" "Resource " (PyStr.replace "ex:" "" uri))
    as Hmarker.
  { intros Hb. apply startswith_spec in Hb. unfold get_node_name. by rewrite Hb. }
  assert (¬ begins_with "ex:" uri → PyStr.startswith "ex:" uri = false) as Hnb.
  { intros Hb. destruct (PyStr.startswith "ex:" uri) eqn:E; [|done].
    destruct Hb. by apply startswith_spec. }
  split_and!.
  - exact Hmarker.
  - intros rest -> Hex Hres. rewrite Hmarker by (by exists rest).
    rewrite replace_marker_head, (replace_absent "ex:") by done.
    by apply replace_absent.
  - intros Hb Hhash. unfold get_node_name. rewrite (Hnb Hb).
    apply contains_spec in Hhash as Hc. rewrite Hc.
    by apply last_piece_after_last.
  - intros Hb Hhash Hslash. unfold get_node_name. rewrite (Hnb Hb).
    apply contains_false in Hhash as ->.
    apply contains_spec in Hslash as Hc. rewrite Hc.
    by apply last_piece_after_last.
  - intros Hb Hhash Hslash. unfold get_node_name. rewrite (Hnb Hb).
    apply contains_false in Hhash as ->. apply contains_false in Hslash as ->.
    apply truncate_spec.
Qed.

(** C4 on a URI with the marker and on one with a ['#']. *)
Lemma C4_get_node_name_witness :
  get_node_name "ex:Product" = "Product" ∧
  after_last "#" "http://example.org/epcis#EventType"
    (get_node_name "http://example.org/epcis#EventType") ∧
  get_node_name "http://example.org/epcis#EventType" = "EventType".
Proof.
  split_and!.
  - apply (proj1 (proj2 (C4_get_node_name "ex:Product")) "Product");
      [reflexivity | | ]; apply contains_false; reflexivity.
  - apply (proj1 (proj2 (proj2 (C4_get_node_name
             "http://example.org/epcis#EventType")))).
    + intros Hb. apply startswith_spec in Hb. discriminate Hb.
    + apply contains_spec. reflexivity.
  - reflexivity.
Defined.

(** C5: [get_node_type] looks in the lowercased URI for ["product"], then
    ["location"], then ["event"], then ["business"], gives the first found
    and ["resource"] when none is; [get_node_group] numbers them
    product=1, location=2, event=3, business=4, resource=0. *)
Theorem C5_node_type_and_group (uri : string) :
  (occurs_in "product" (PyStr.lower uri) → get_node_type uri = "product") ∧
  (¬ occurs_in "product" (PyStr.lower uri) →
   occurs_in "location" (PyStr.lower uri) → get_node_type uri = "location") ∧
  (¬ occurs_in "product" (PyStr.lower uri) →
   ¬ occurs_in "location" (PyStr.lower uri) →
   occurs_in "event" (PyStr.lower uri) → get_node_type uri = "event") ∧
  (¬ occurs_in "product" (PyStr.lower uri) →
   ¬ occurs_in "location" (PyStr.lower uri) →
   ¬ occurs_in "event" (PyStr.lower uri) →
   occurs_in "business" (PyStr.lower uri) → get_node_type uri = "business") ∧
  (¬ occurs_in "product" (PyStr.lower uri) →
   ¬ occurs_in "location" (PyStr.lower uri) →
   ¬ occurs_in "event" (PyStr.lower uri) →
   ¬ occurs_in "business" (PyStr.lower uri) → get_node_type uri = "resource") ∧
  (get_node_type uri = "product" → get_node_group uri = 1%Z) ∧
  (get_node_type uri = "location" → get_node_group uri = 2%Z) ∧
  (get_node_type uri = "event" → get_node_group uri = 3%Z) ∧
  (get_node_type uri = "business" → get_node_group uri = 4%Z) ∧
  (get_node_type uri = "resource" → get_node_group uri = 0%Z).
Proof.
  split_and!;
    try (unfold get_node_group; intros ->; vm_compute; reflexivity);
    unfold get_node_type; intros;
    repeat match goal with
      | H : occurs_in _ _ |- _ => apply contains_spec in H; rewrite H
      | H : ¬ occurs_in _ _ |- _ => apply contains_false in H; rewrite H
      end;
    reflexivity.
Qed.

(** C5 on the URI of the specification's example: ["eventtype"] holds
    ["event"], so the type is ["event"] and the group 3. *)
Lemma C5_node_type_and_group_witness :
  get_node_type "http://example.org/epcis#EventType" = "event" ∧
  get_node_group "http://example.org/epcis#EventType" = 3%Z.
Proof.
  pose proof (C5_node_type_and_group "http://example.org/epcis#EventType")
    as (_ & _ & Hevent & _ & _ & _ & _ & Hgroup & _).
  assert (get_node_type "http://example.org/epcis#EventType" = "event") as Ht.
  { apply Hevent; [apply contains_false | apply contains_false | apply contains_spec];
      reflexivity. }
  split; [exact Ht | exact (Hgroup Ht)].
Defined.

(** C6: [get_edge_type] gives ["type"] if the lowercased predicate holds
    ["type"], else ["has"] if it holds ["has"], else ["relationship"]. *)
Theorem C6_get_edge_type (predicate : string) :
  (occurs_in "type" (PyStr.lower predicate) → get_edge_type predicate = "type") ∧
  (¬ occurs_in "type" (PyStr.lower predicate) →
   occurs_in "has" (PyStr.lower predicate) → get_edge_type predicate = "has") ∧
  (¬ occurs_in "type" (PyStr.lower predicate) →
   ¬ occurs_in "has" (PyStr.lower predicate) →
   get_edge_type predicate = "relationship").
Proof.
  split_and!; unfold get_edge_type; intros;
    repeat match goal with
      | H : occurs_in _ _ |- _ => apply contains_spec in H; rewrite H
      | H : ¬ occurs_in _ _ |- _ => apply contains_false in H; rewrite H
      end;
    reflexivity.
Qed.

(** C7: [get_edge_label] gives what follows the last ['#'] if the predicate
    holds one, else the predicate itself, cut to 20 characters and followed
    by ["..."] when it is longer than 20. *)
Theorem C7_get_edge_label (predicate : string) :
  (occurs_in "#" predicate → after_last "#" predicate (get_edge_label predicate)) ∧
  (¬ occurs_in "#" predicate → truncated 20 predicate (get_edge_label predicate)).
Proof.
  split; intros Hhash; unfold get_edge_label.
  - apply contains_spec in Hhash as Hc. rewrite Hc.
    by apply last_piece_after_last.
  - apply contains_false in Hhash as ->. apply truncate_spec.
Qed.

(** C6 on three predicates, one per branch. *)
Lemma C6_get_edge_type_witness :
  get_edge_type "ex:hasType" = "type" ∧
  get_edge_type "ex:hasPart" = "has" ∧
  get_edge_type "ex:partOf" = "relationship".
Proof.
  split_and!.
  - apply (proj1 (C6_get_edge_type "ex:hasType")).
    apply contains_spec. reflexivity.
  - apply (proj1 (proj2 (C6_get_edge_type "ex:hasPart")));
      [apply contains_false | apply contains_spec]; reflexivity.
  - apply (proj2 (proj2 (C6_get_edge_type "ex:partOf")));
      apply contains_false; reflexivity.
Defined.

(** C7 on a predicate with a ['#'] and on a short one without. *)
Lemma C7_get_edge_label_witness :
  after_last "#" "http://www.w3.org/1999/02/22-rdf-syntax-ns#type"
    (get_edge_label "http://www.w3.org/1999/02/22-rdf-syntax-ns#type") ∧
  get_edge_label "http://www.w3.org/1999/02/22-rdf-syntax-ns#type" = "type" ∧
  truncated 20 "ex:hasType" (get_edge_label "ex:hasType") ∧
  get_edge_label "ex:hasType" = "ex:hasType".
Proof.
  split_and!.
  - apply (proj1 (C7_get_edge_label
                    "http://www.w3.org/1999/02/22-rdf-syntax-ns#type")).
    apply contains_spec. reflexivity.
  - reflexivity.
  - apply (proj2 (C7_get_edge_label "ex:hasType")).
    apply contains_false. reflexivity.
  - reflexivity.
Defined.

(** ** The insertion-ordered dict *)

Section odict_facts.
Context {V : Type}.
Implicit Types (d : ODict.t V) (k : string) (v : V).

Lemma mem_spec k d : ODict.mem k d = true ↔ k ∈ ODict.keys d.
Proof.
  unfold ODict.keys. induction d as [|[k' v'] d IH]; simpl.
  - rewrite elem_of_nil. split; [discriminate | done].
  - rewrite elem_of_cons, orb_true_iff, IH, String.eqb_eq.
    split; (intros [?|?]; [left | right]); done.
Qed.

Lemma mem_false k d : ODict.mem k d = false ↔ k ∉ ODict.keys d.
Proof. rewrite <- mem_spec. by destruct (ODict.mem k d). Qed.

(** Storing under a new key appends. *)
Lemma set_fresh k v d : k ∉ ODict.keys d → ODict.set k v d = d ++ [(k, v)].
Proof.
  unfold ODict.keys. induction d as [|[k' v'] d IH]; simpl; [done|].
  rewrite not_elem_of_cons. intros [Hne Hnotin].
  destruct (String.eqb_spec k' k) as [->|_]; [done|]. by rewrite IH.
Qed.

(** Storing under a present key replaces the value it holds. *)
Lemma set_present k v d :
  k ∈ ODict.keys d → ODict.get k (ODict.set k v d) = Some v.
Proof.
  unfold ODict.keys. induction d as [|[k' v'] d IH]; simpl.
  - by rewrite elem_of_nil.
  - rewrite elem_of_cons. intros Hin.
    destruct (String.eqb_spec k' k) as [->|Hne]; simpl.
    + by rewrite String.eqb_refl.
    + apply String.eqb_neq in Hne as Hneb. rewrite Hneb. apply IH.
      destruct Hin as [->|Hin]; done.
Qed.

Lemma get_app_l k v d added :
  ODict.get k d = Some v → ODict.get k (d ++ added) = Some v.
Proof.
  induction d as [|[k' v'] d IH]; simpl; [done|].
  by destruct (String.eqb k' k).
Qed.
End odict_facts.

(** ** One iteration of the loop *)

Lemma get_value_value_of (b : binding) (var : string) :
  get_value b var = value_of b var.
Proof.
  unfold get_value, value_of. destruct (b !! var) as [attrs|]; simpl; [done|].
  apply lookup_empty.
Qed.

Lemma truthy_spec (v : option string) : truthy v = true ↔ present_nonempty v.
Proof.
  unfold present_nonempty. destruct v as [s|]; simpl.
  - unfold PyStr.truthy, PyStr.len. destruct s as [|a s]; simpl.
    + split; [discriminate | intros (s' & Hs' & Hne)]. congruence.
    + split; [intros _; by eexists | done].
  - split; [discriminate | intros (s' & Hs' & _); discriminate].
Qed.

(** The test of the loop passes exactly on the qualifying bindings. *)
Lemma loop_test_spec (b : binding) :
  (truthy (get_value b "s") && truthy (get_value b "p") &&
   truthy (get_value b "o")) = true ↔ qualifying b.
Proof.
  unfold qualifying. rewrite !andb_true_iff, !truthy_spec, !get_value_value_of.
  tauto.
Qed.

Lemma add_node_cases (u : string) (ns : ODict.t Node) :
  (u ∈ ODict.keys ns ∧ add_node u ns = ns) ∨
  ((u ∉ ODict.keys ns) ∧ add_node u ns = ns ++ [(u, make_node u)]).
Proof.
  unfold add_node. destruct (ODict.mem u ns) eqn:Hmem; simpl.
  - left. by apply mem_spec in Hmem.
  - right. apply mem_false in Hmem. split; [done | by apply set_fresh].
Qed.

Lemma loop_body_skip (st : conv_state) (b : binding) :
  ¬ qualifying b → loop_body st b = st.
Proof.
  intros Hnq. destruct st as [ns ls]. unfold loop_body.
  destruct (truthy (get_value b "s") && truthy (get_value b "p") &&
            truthy (get_value b "o")) eqn:Htest; [|done].
  destruct Hnq. by apply loop_test_spec.
Qed.

Lemma loop_body_take (ns : ODict.t Node) (ls : list Link) (b : binding) :
  qualifying b →
  ∃ s p o, value_of b "s" = Some s ∧ value_of b "p" = Some p ∧
           value_of b "o" = Some o ∧ link_of b = Some (make_link s p o) ∧
           loop_body (ns, ls) b =
             (add_node o (add_node s ns), ls ++ [make_link s p o]).
Proof.
  intros Hq. pose proof Hq as ((s & Hs & _) & (p & Hp & _) & (o & Ho & _)).
  exists s, p, o. split_and!; try done.
  - unfold link_of. by rewrite Hs, Hp, Ho.
  - apply loop_test_spec in Hq. unfold loop_body. rewrite Hq.
    by rewrite !get_value_value_of, Hs, Hp, Ho.
Qed.

(** ** Adding a node *)

Lemma add_node_keys (u x : string) (ns : ODict.t Node) :
  x ∈ ODict.keys (add_node u ns) ↔ x = u ∨ x ∈ ODict.keys ns.
Proof.
  destruct (add_node_cases u ns) as [[Hin ->]|[Hnotin ->]].
  - split; [by right | intros [->|?]; done].
  - unfold ODict.keys. rewrite fmap_app, elem_of_app. simpl.
    rewrite list_elem_of_singleton. tauto.
Qed.

Lemma add_node_extends (u : string) (ns : ODict.t Node) :
  ∃ added, add_node u ns = ns ++ added.
Proof.
  destruct (add_node_cases u ns) as [[_ ->]|[_ ->]].
  - exists []. by rewrite app_nil_r.
  - by eexists.
Qed.

Lemma add_node_NoDup (u : string) (ns : ODict.t Node) :
  NoDup (ODict.keys ns) → NoDup (ODict.keys (add_node u ns)).
Proof.
  intros Hnd. destruct (add_node_cases u ns) as [[_ ->]|[Hnotin ->]]; [done|].
  unfold ODict.keys in *. rewrite fmap_app. apply NoDup_app. split_and!.
  - done.
  - intros x Hx. simpl. rewrite list_elem_of_singleton. by intros ->.
  - apply NoDup_singleton.
Qed.

Lemma add_node_well_keyed (u : string) (ns : ODict.t Node) :
  well_keyed ns → well_keyed (add_node u ns).
Proof.
  intros Hwk. destruct (add_node_cases u ns) as [[_ ->]|[_ ->]]; [done|].
  apply Forall_app. split; [done|]. by constructor.
Qed.

(** ** The loop *)

Lemma appears_in_nil (u : string) : ¬ appears_in u [].
Proof. intros (b & Hb & _). by apply elem_of_nil in Hb. Qed.

Lemma appears_in_cons (u : string) (b : binding) (bs : list binding) :
  appears_in u (b :: bs) ↔
  (qualifying b ∧ (value_of b "s" = Some u ∨ value_of b "o" = Some u)) ∨
  appears_in u bs.
Proof.
  unfold appears_in. split.
  - intros (b' & Hin & Hq & Hu). apply elem_of_cons in Hin as [->|Hin].
    + by left.
    + right. by exists b'.
  - intros [[Hq Hu]|(b' & Hin & Hq & Hu)].
    + exists b. split; [by left | done].
    + exists b'. split; [by right | done].
Qed.

Section loop_facts.
Implicit Types (b : binding) (bs : list binding) (st : conv_state).

Lemma convert_loop_cons b bs st :
  convert_loop (b :: bs) st = convert_loop bs (loop_body st b).
Proof. reflexivity. Qed.

(** The loop only appends to the dict [nodes]. *)
Lemma convert_loop_extends bs st :
  ∃ added, (convert_loop bs st).1 = st.1 ++ added.
Proof.
  revert st. induction bs as [|b bs IH]; intros st.
  - exists []. simpl. by rewrite app_nil_r.
  - rewrite convert_loop_cons.
    destruct (IH (loop_body st b)) as (added & ->).
    destruct (decide (qualifying b)) as [Hq|Hnq].
    + destruct st as [ns ls].
      destruct (loop_body_take ns ls b Hq) as (s & p & o & _ & _ & _ & _ & ->).
      simpl. destruct (add_node_extends s ns) as (a1 & ->).
      destruct (add_node_extends o (ns ++ a1)) as (a2 & ->).
      exists (a1 ++ a2 ++ added). by rewrite <- !app_assoc.
    + rewrite loop_body_skip by done. by eexists.
Qed.

(** The keys of the dict [nodes] after the loop: those it began with and
    the subjects and objects of the qualifying bindings. *)
Lemma convert_loop_keys bs st u :
  u ∈ ODict.keys (convert_loop bs st).1 ↔
  u ∈ ODict.keys st.1 ∨ appears_in u bs.
Proof.
  revert st. induction bs as [|b bs IH]; intros st.
  - simpl. pose proof (appears_in_nil u). tauto.
  - rewrite convert_loop_cons, IH, appears_in_cons.
    destruct (decide (qualifying b)) as [Hq|Hnq].
    + destruct st as [ns ls].
      destruct (loop_body_take ns ls b Hq) as (s & p & o & Hs & _ & Ho & _ & ->).
      simpl. rewrite !add_node_keys, Hs, Ho.
      split; [intros [[->|[->|?]]|?] | intros [?|[[_ [?|?]]|?]]];
        simplify_eq; tauto.
    + rewrite loop_body_skip by done. tauto.
Qed.

Lemma convert_loop_NoDup bs st :
  NoDup (ODict.keys st.1) → NoDup (ODict.keys (convert_loop bs st).1).
Proof.
  revert st. induction bs as [|b bs IH]; intros st Hnd; [done|].
  rewrite convert_loop_cons. apply IH.
  destruct (decide (qualifying b)) as [Hq|Hnq].
  - destruct st as [ns ls].
    destruct (loop_body_take ns ls b Hq) as (s & p & o & _ & _ & _ & _ & ->).
    simpl. by do 2 apply add_node_NoDup.
  - by rewrite loop_body_skip.
Qed.

Lemma convert_loop_well_keyed bs st :
  well_keyed st.1 → well_keyed (convert_loop bs st).1.
Proof.
  revert st. induction bs as [|b bs IH]; intros st Hwk; [done|].
  rewrite convert_loop_cons. apply IH.
  destruct (decide (qualifying b)) as [Hq|Hnq].
  - destruct st as [ns ls].
    destruct (loop_body_take ns ls b Hq) as (s & p & o & _ & _ & _ & _ & ->).
    simpl. by do 2 apply add_node_well_keyed.
  - by rewrite loop_body_skip.
Qed.

(** The list [links] after the loop: one link per qualifying binding, in
    order, after those it began with. *)
Lemma convert_loop_links bs st :
  (convert_loop bs st).2 = st.2 ++ omap link_of (filter qualifying bs).
Proof.
  revert st. induction bs as [|b bs IH]; intros st.
  - simpl. by rewrite app_nil_r.
  - rewrite convert_loop_cons, IH.
    destruct (decide (qualifying b)) as [Hq|Hnq].
    + rewrite filter_cons_True by done. destruct st as [ns ls].
      destruct (loop_body_take ns ls b Hq) as (s & p & o & _ & _ & _ & Hl & ->).
      simpl. by rewrite Hl, <- app_assoc.
    + by rewrite filter_cons_False, loop_body_skip.
Qed.

(** The bindings that do not qualify leave no mark on the loop. *)
Lemma convert_loop_filter bs st :
  convert_loop bs st = convert_loop (filter qualifying bs) st.
Proof.
  revert st. induction bs as [|b bs IH]; intros st; [done|].
  destruct (decide (qualifying b)) as [Hq|Hnq].
  - rewrite filter_cons_True by done. rewrite !convert_loop_cons. apply IH.
  - rewrite filter_cons_False by done.
    rewrite convert_loop_cons, loop_body_skip by done. apply IH.
Qed.

Lemma convert_loop_links_closed bs st :
  links_closed st.1 st.2 →
  links_closed (convert_loop bs st).1 (convert_loop bs st).2.
Proof.
  revert st. induction bs as [|b bs IH]; intros st Hcl; [done|].
  rewrite convert_loop_cons. apply IH.
  destruct (decide (qualifying b)) as [Hq|Hnq].
  - destruct st as [ns ls].
    destruct (loop_body_take ns ls b Hq) as (s & p & o & _ & _ & _ & _ & ->).
    simpl in *. unfold links_closed in *. apply Forall_app. split.
    + eapply Forall_impl; [exact Hcl|]. intros l [Hsrc Htgt].
      rewrite !add_node_keys. tauto.
    + constructor; [|constructor]. simpl. rewrite !add_node_keys. tauto.
  - by rewrite loop_body_skip.
Qed.
End loop_facts.

(** The ids of the values of a well-keyed dict are its keys. *)
Lemma well_keyed_ids (ns : ODict.t Node) :
  well_keyed ns → n_id <$> ODict.values ns = ODict.keys ns.
Proof.
  unfold well_keyed, ODict.values, ODict.keys.
  induction 1 as [|[k n] ns Hk _ IH]; [done|]. csimpl in *. by f_equal.
Qed.

Lemma convert_nodes (bindings : list binding) :
  nodes (convert_sparql_to_graph bindings) =
    ODict.values (convert_loop bindings (ODict.empty, [])).1.
Proof.
  unfold convert_sparql_to_graph.
  by destruct (convert_loop bindings (ODict.empty, [])).
Qed.

Lemma convert_links (bindings : list binding) :
  links (convert_sparql_to_graph bindings) =
    (convert_loop bindings (ODict.empty, [])).2.
Proof.
  unfold convert_sparql_to_graph.
  by destruct (convert_loop bindings (ODict.empty, [])).
Qed.

(** The ids of the nodes returned are the keys of the dict [nodes]. *)
Lemma convert_node_ids (bindings : list binding) :
  n_id <$> nodes (convert_sparql_to_graph bindings) = final_node_keys bindings.
Proof.
  rewrite convert_nodes. apply well_keyed_ids, convert_loop_well_keyed.
  constructor.
Qed.

(** ** Counting *)

Lemma node_entries_absent (u : string) (ns : list Node) :
  u ∉ n_id <$> ns → node_entries u ns = 0.
Proof.
  unfold node_entries. induction ns as [|n ns IH]; csimpl; [done|].
  rewrite not_elem_of_cons. intros [Hne Hnotin].
  rewrite filter_cons_False by done. by apply IH.
Qed.

Lemma node_entries_NoDup (u : string) (ns : list Node) :
  NoDup (n_id <$> ns) → u ∈ n_id <$> ns → node_entries u ns = 1.
Proof.
  unfold node_entries. induction ns as [|n ns IH]; csimpl.
  - intros _ Hin. by apply elem_of_nil in Hin.
  - rewrite NoDup_cons, elem_of_cons. intros [Hfresh Hnd] Hin.
    destruct (decide (n_id n = u)) as [Heq|Hne].
    + rewrite filter_cons_True by done. simpl. f_equal.
      apply node_entries_absent. by rewrite <- Heq.
    + rewrite filter_cons_False by done. apply IH; [done|].
      destruct Hin as [->|Hin]; done.
Qed.

Lemma omap_length_total {A B} (f : A → option B) (l : list A) :
  Forall (λ x, is_Some (f x)) l → length (omap f l) = length l.
Proof.
  induction 1 as [|x l [y Hy] _ IH]; csimpl; [done|]. rewrite Hy. simpl.
  by rewrite IH.
Qed.

Lemma qualifying_link_of (b : binding) : qualifying b → is_Some (link_of b).
Proof.
  intros Hq. destruct (loop_body_take [] [] b Hq) as (s & p & o & _ & _ & _ & Hl & _).
  by eexists.
Qed.

(** ** The worked example *)

Lemma example_keys :
  final_node_keys example_bindings = ["ex:resource1"; "ex:Product"].
Proof. vm_compute. reflexivity. Qed.

Lemma example_links :
  links (convert_sparql_to_graph example_bindings) =
    [ {| l_source := "ex:resource1"; l_target := "ex:Product";
         l_type := "type"; l_label := "ex:hasType" |} ].
Proof. vm_compute. reflexivity. Qed.

(** C1, as stated, fails: the one link of the example does not have the
    category ["has"]. *)
Lemma C1_example_link_is_not_has :
  ¬ (final_node_keys example_bindings ≡ₚ ["ex:resource1"; "ex:Product"] ∧
     ∃ l, links (convert_sparql_to_graph example_bindings) = [l] ∧
          l_type l = get_edge_type "ex:hasType" ∧ l_type l = "has" ∧
          l_label l = get_edge_label "ex:hasType" ∧ l_label l = "ex:hasType").
Proof.
  intros (_ & l & Hl & _ & Hhas & _). rewrite example_links in Hl.
  injection Hl as <-. discriminate Hhas.
Qed.

(** C1, amended: on the bindings [[{s:"ex:resource1", p:"ex:hasType",
    o:"ex:Product"}]] the dict of nodes has exactly the keys ["ex:resource1"]
    and ["ex:Product"], and there is exactly one link; its category, the
    [get_edge_type] of the predicate, is ["type"] (the lowercased predicate
    ["ex:hastype"] holds ["type"], which is looked for before ["has"]), and
    its label, the [get_edge_label] of the predicate, is ["ex:hasType"]
    whole. *)
Theorem C1_example_graph :
  final_node_keys example_bindings = ["ex:resource1"; "ex:Product"] ∧
  n_id <$> nodes (convert_sparql_to_graph example_bindings) =
    ["ex:resource1"; "ex:Product"] ∧
  ∃ l, links (convert_sparql_to_graph example_bindings) = [l] ∧
       l_source l = "ex:resource1" ∧ l_target l = "ex:Product" ∧
       l_type l = get_edge_type "ex:hasType" ∧ l_type l = "type" ∧
       l_label l = get_edge_label "ex:hasType" ∧ l_label l = "ex:hasType".
Proof.
  split; [exact example_keys|].
  split; [rewrite convert_node_ids; exact example_keys|].
  eexists. split; [exact example_links|]. by split_and!.
Qed.

(** ** The converter *)

(** C2: the links returned number the bindings whose [s], [p] and [o]
    values are all present and non-empty; they are the links of those
    bindings, one each and in order, so that equal qualifying bindings give
    equal links, each its own; and an iteration on a qualifying binding
    appends its link whatever the dict of nodes holds. *)
Theorem C2_link_count (bindings : list binding) :
  length (links (convert_sparql_to_graph bindings)) =
    length (filter qualifying bindings) ∧
  links (convert_sparql_to_graph bindings) =
    omap link_of (filter qualifying bindings) ∧
  (∀ ns ls b, qualifying b →
     ∃ l, link_of b = Some l ∧ (loop_body (ns, ls) b).2 = ls ++ [l]).
Proof.
  assert (links (convert_sparql_to_graph bindings) =
          omap link_of (filter qualifying bindings)) as Hlinks.
  { rewrite convert_links. apply convert_loop_links. }
  split_and!; [|exact Hlinks|].
  - rewrite Hlinks. apply omap_length_total, Forall_forall.
    intros b Hb. apply list_elem_of_filter in Hb as [Hq _].
    by apply qualifying_link_of.
  - intros ns ls b Hq.
    destruct (loop_body_take ns ls b Hq) as (s & p & o & _ & _ & _ & Hl & ->).
    by eexists.
Qed.

(** C2 on the example given twice: two links, although the second
    iteration finds both nodes in the dict. *)
Lemma C2_link_count_witness :
  length (links (convert_sparql_to_graph (example_bindings ++ example_bindings)))
    = 2 ∧
  length (nodes (convert_sparql_to_graph (example_bindings ++ example_bindings)))
    = 2.
Proof.
  split; [|vm_compute; reflexivity].
  rewrite (proj1 (C2_link_count (example_bindings ++ example_bindings))).
  vm_compute. reflexivity.
Defined.

(** C3: the ids of the nodes returned are exactly the URIs that are the
    subject or the object of a qualifying binding, no id comes twice, so
    each such URI has exactly one node however often and in whichever role
    it comes; and an entry of the dict of nodes is never overwritten: what
    is stored under a key when the loop starts is stored under it when the
    loop ends. *)
Theorem C3_one_node_per_uri (bindings : list binding) :
  (∀ u, u ∈ n_id <$> nodes (convert_sparql_to_graph bindings) ↔
        appears_in u bindings) ∧
  NoDup (n_id <$> nodes (convert_sparql_to_graph bindings)) ∧
  (∀ u, appears_in u bindings →
        node_entries u (nodes (convert_sparql_to_graph bindings)) = 1) ∧
  (∀ st u n, ODict.get u st.1 = Some n →
             ODict.get u (convert_loop bindings st).1 = Some n).
Proof.
  assert (∀ u, u ∈ n_id <$> nodes (convert_sparql_to_graph bindings) ↔
               appears_in u bindings) as Hids.
  { intros u. rewrite convert_node_ids. unfold final_node_keys.
    rewrite convert_loop_keys. simpl. unfold ODict.keys. simpl.
    rewrite elem_of_nil. tauto. }
  assert (NoDup (n_id <$> nodes (convert_sparql_to_graph bindings))) as Hnd.
  { rewrite convert_node_ids. apply convert_loop_NoDup. constructor. }
  split_and!; [exact Hids | exact Hnd | |].
  - intros u Hu. apply node_entries_NoDup; [exact Hnd | by apply Hids].
  - intros st u n Hget.
    destruct (convert_loop_extends bindings st) as (added & ->).
    by apply get_app_l.
Qed.

(** C3 on the example given twice: ["ex:resource1"] is the subject of two
    qualifying bindings and has one node. *)
Lemma C3_one_node_per_uri_witness :
  appears_in "ex:resource1" (example_bindings ++ example_bindings) ∧
  node_entries "ex:resource1"
    (nodes (convert_sparql_to_graph (example_bindings ++ example_bindings))) = 1.
Proof.
  assert (appears_in "ex:resource1" (example_bindings ++ example_bindings)) as Ha.
  { eexists. split; [by left|]. split; [|by left].
    split_and!; eexists; (split; [vm_compute; reflexivity | discriminate]). }
  split; [exact Ha|].
  exact (proj1 (proj2 (proj2
    (C3_one_node_per_uri (example_bindings ++ example_bindings))))
    "ex:resource1" Ha).
Defined.

(** C8: a binding whose subject, predicate or object value is missing or
    empty leaves the state of the loop as it found it, adding no link and
    no node; the graph returned is the graph of the qualifying bindings
    alone, and dropping such a binding from the list changes nothing. *)
Theorem C8_non_qualifying_dropped (bindings : list binding) :
  convert_sparql_to_graph bindings =
    convert_sparql_to_graph (filter qualifying bindings) ∧
  (∀ st b, ¬ qualifying b → loop_body st b = st) ∧
  (∀ before b after, bindings = before ++ b :: after → ¬ qualifying b →
     convert_sparql_to_graph bindings = convert_sparql_to_graph (before ++ after)).
Proof.
  assert (∀ bs, convert_sparql_to_graph bs =
                convert_sparql_to_graph (filter qualifying bs)) as Hfilter.
  { intros bs. unfold convert_sparql_to_graph.
    by rewrite <- convert_loop_filter. }
  split_and!; [apply Hfilter | apply loop_body_skip |].
  intros before b after -> Hnq.
  rewrite (Hfilter (before ++ b :: after)), (Hfilter (before ++ after)).
  by rewrite !filter_app, filter_cons_False.
Qed.

(** C8 on the example followed by a binding without object and one with
    an empty subject: the graph is that of the example. *)
Lemma C8_non_qualifying_dropped_witness :
  ¬ qualifying object_absent ∧ ¬ qualifying subject_empty ∧
  convert_sparql_to_graph (example_bindings ++ [object_absent; subject_empty]) =
    convert_sparql_to_graph example_bindings.
Proof.
  assert (¬ qualifying object_absent) as Habsent.
  { intros (_ & _ & (o & Ho & _)). vm_compute in Ho. discriminate Ho. }
  assert (¬ qualifying subject_empty) as Hempty.
  { intros ((s & Hs & Hne) & _). vm_compute in Hs. by injection Hs as <-. }
  split_and!; [exact Habsent | exact Hempty |].
  rewrite (proj2 (proj2 (C8_non_qualifying_dropped
             (example_bindings ++ [object_absent; subject_empty])))
             example_bindings object_absent [subject_empty] eq_refl Habsent).
  rewrite (proj2 (proj2 (C8_non_qualifying_dropped
             (example_bindings ++ [subject_empty])))
             example_bindings subject_empty [] eq_refl Hempty).
  by rewrite app_nil_r.
Defined.

(** C10: both ends of every link returned are ids of nodes returned. *)
Theorem C10_no_dangling_links (bindings : list binding) (l : Link) :
  l ∈ links (convert_sparql_to_graph bindings) →
  l_source l ∈ n_id <$> nodes (convert_sparql_to_graph bindings) ∧
  l_target l ∈ n_id <$> nodes (convert_sparql_to_graph bindings).
Proof.
  rewrite convert_links, convert_node_ids. unfold final_node_keys.
  assert (links_closed (convert_loop bindings (ODict.empty, [])).1
            (convert_loop bindings (ODict.empty, [])).2) as Hcl.
  { apply convert_loop_links_closed. constructor. }
  unfold links_closed in Hcl. rewrite Forall_forall in Hcl. apply Hcl.
Qed.

(** C10 on the example: the ends of its link are among its node ids. *)
Lemma C10_no_dangling_links_witness :
  "ex:resource1" ∈ n_id <$> nodes (convert_sparql_to_graph example_bindings) ∧
  "ex:Product" ∈ n_id <$> nodes (convert_sparql_to_graph example_bindings).
Proof.
  apply (C10_no_dangling_links example_bindings
           {| l_source := "ex:resource1"; l_target := "ex:Product";
              l_type := "type"; l_label := "ex:hasType" |}).
  rewrite example_links. by left.
Defined.

(** ** The checks *)

Section run_facts.
Context {A B : Type}.

Lemma runs_ret (a : A) w : runs (mret a) w a [].
Proof.
  exists w. split; [reflexivity|]. split; simpl; [lia | by rewrite app_nil_r].
Qed.

Lemma runs_bind (m : M A) (f : A → M B) w a b r1 r2 r :
  runs m w a r1 →
  (∀ w1, served w1 = served w + length r1 → runs (f a) w1 b r2) →
  r = r1 ++ r2 →
  runs (m ≫= f) w b r.
Proof.
  intros (w1 & Hm & Hs1 & Ht1) Hf ->.
  destruct (Hf w1 Hs1) as (w2 & Hfa & Hs2 & Ht2).
  exists w2. split.
  - unfold mbind, M_bind. by rewrite Hm.
  - split.
    + rewrite Hs2, Hs1, length_app. lia.
    + by rewrite Ht2, Ht1, app_assoc.
Qed.
End run_facts.

Lemma runs_print line w : runs (print line) w tt [].
Proof.
  eexists. split; [reflexivity|]. split; simpl; [lia|].
  unfold requests_of. rewrite List.filter_app. simpl. by rewrite !app_nil_r.
Qed.

Lemma runs_request env e w :
  is_request e = true → runs (request env e) w (env (served w)) [e].
Proof.
  intros He. eexists. split; [reflexivity|]. split; simpl; [lia|].
  unfold requests_of. rewrite List.filter_app. simpl. by rewrite He.
Qed.


(** A print, then the rest. *)
Lemma runs_print_then {B} line (k : M B) w b r :
  (∀ w1, served w1 = served w → runs k w1 b r) →
  runs (print line ≫= λ _, k) w b r.
Proof.
  intros Hk. eapply runs_bind; [apply runs_print | | reflexivity].
  intros w1 Hw1. apply Hk. simpl in Hw1. lia.
Qed.

Section check_facts.
Variable env : nat → http_outcome.

(** [test_static_files] issues its GET and returns [True] exactly on a
    response of status 200. *)
Lemma test_static_files_runs w :
  runs (test_static_files env) w (static_result (env (served w)))
    [HttpGet static_url].
Proof.
  unfold test_static_files. apply runs_print_then. intros w1 Hw1.
  eapply runs_bind with (r1 := [HttpGet static_url]) (r2 := []);
    [by apply runs_request | | reflexivity].
  intros w2 _. rewrite Hw1. destruct (env (served w)) as [|status json].
  - apply runs_print_then. intros. apply runs_ret.
  - simpl. destruct (status =? 200)%Z;
      apply runs_print_then; intros; apply runs_ret.
Qed.

(** [test_sparql_api] issues its POST and returns the bindings of a
    response of status 200 whose body decodes, else [None]. *)
Lemma test_sparql_api_runs w :
  runs (test_sparql_api env) w (sparql_result (env (served w)))
    [HttpPost sparql_url sparql_query].
Proof.
  unfold test_sparql_api. apply runs_print_then. intros w1 Hw1.
  eapply runs_bind with (r1 := [HttpPost sparql_url sparql_query]) (r2 := []);
    [by apply runs_request | | reflexivity].
  intros w2 _. rewrite Hw1. destruct (env (served w)) as [|status json].
  - apply runs_print_then. intros. apply runs_ret.
  - simpl. destruct (status =? 200)%Z; [destruct json as [bindings|]|];
      apply runs_print_then; intros; apply runs_ret.
Qed.


End check_facts.



(** * Further properties *)

(** ** Classification and letter case *)

Lemma lower_char_idemp (c : ascii) :
  PyStr.lower_char (PyStr.lower_char c) = PyStr.lower_char c.
Proof. by destruct c as [[] [] [] [] [] [] [] []]. Qed.

Lemma lower_idemp (s : string) : PyStr.lower (PyStr.lower s) = PyStr.lower s.
Proof.
  induction s as [|c s IH]; simpl; [done|]. by rewrite lower_char_idemp, IH.
Qed.

(** X1: The category of a node, its group and the category of an edge do not
    depend on the case of the letters: two strings that differ only in
    case are classified alike, and a string is classified like its
    lowercase form. *)
Theorem classification_ignores_case (uri predicate : string) :
  (∀ other, PyStr.lower other = PyStr.lower uri →
     get_node_type other = get_node_type uri ∧
     get_node_group other = get_node_group uri) ∧
  (∀ other, PyStr.lower other = PyStr.lower predicate →
     get_edge_type other = get_edge_type predicate) ∧
  get_node_type (PyStr.lower uri) = get_node_type uri ∧
  get_node_group (PyStr.lower uri) = get_node_group uri ∧
  get_edge_type (PyStr.lower predicate) = get_edge_type predicate.
Proof.
  assert (∀ u v, PyStr.lower u = PyStr.lower v →
                 get_node_type u = get_node_type v) as Htype.
  { intros u v Huv. unfold get_node_type. by rewrite Huv. }
  assert (∀ u v, PyStr.lower u = PyStr.lower v →
                 get_node_group u = get_node_group v) as Hgroup.
  { intros u v Huv. unfold get_node_group. by rewrite (Htype u v Huv). }
  assert (∀ u v, PyStr.lower u = PyStr.lower v →
                 get_edge_type u = get_edge_type v) as Hedge.
  { intros u v Huv. unfold get_edge_type. by rewrite Huv. }
  split_and!.
  - intros other Ho. split; [by apply Htype | by apply Hgroup].
  - intros other Ho. by apply Hedge.
  - apply Htype, lower_idemp.
  - apply Hgroup, lower_idemp.
  - apply Hedge, lower_idemp.
Qed.

Lemma classification_ignores_case_witness :
  get_node_type "urn:PRODUCT:7" = get_node_type "urn:product:7" ∧
  get_node_group "urn:PRODUCT:7" = 1%Z ∧
  get_edge_type "ex:HASPART" = get_edge_type "ex:hasPart".
Proof.
  pose proof (classification_ignores_case "urn:product:7" "ex:hasPart")
    as (Hnode & Hedge & _).
  destruct (Hnode "urn:PRODUCT:7" eq_refl) as [Htype Hgroup].
  split_and!; [exact Htype | by rewrite Hgroup | exact (Hedge "ex:HASPART" eq_refl)].
Defined.

(** ** Lengths of the truncated texts *)

Lemma truncated_length (n : nat) (s : string) :
  String.length (if (n <? PyStr.len s)%nat then PyStr.slice_to n s +:+ "..." else s)
  = if decide (n < String.length s) then n + 3 else String.length s.
Proof.
  unfold PyStr.len. destruct (Nat.ltb_spec n (String.length s)) as [Hlt|Hge].
  - rewrite decide_True by done.
    destruct (slice_to_split n s) as (rest & _ & Hlen); [lia|].
    by rewrite length_append, Hlen.
  - by rewrite decide_False by lia.
Qed.

(** X2: A predicate without ['#'] gets a label of its own length when that is
    at most 20, and of length 23 otherwise; so the label of a predicate of
    21 or 22 characters is longer than the predicate. Likewise a URI that
    does not begin with ["ex:"] and holds neither ['#'] nor ['/'] gets a
    name of its own length up to 30, and of length 33 beyond. *)
Theorem truncation_lengths (s : string) :
  ¬ occurs_in "#" s →
  String.length (get_edge_label s) =
    (if decide (20 < String.length s) then 23 else String.length s) ∧
  (¬ begins_with "ex:" s → ¬ occurs_in "/" s →
   String.length (get_node_name s) =
     (if decide (30 < String.length s) then 33 else String.length s)).
Proof.
  intros Hhash. apply contains_false in Hhash. split.
  - unfold get_edge_label. rewrite Hhash. apply (truncated_length 20).
  - intros Hex Hslash. unfold get_node_name.
    destruct (PyStr.startswith "ex:" s) eqn:Hstart.
    { destruct Hex. by apply startswith_spec. }
    apply contains_false in Hslash. rewrite Hhash, Hslash.
    apply (truncated_length 30).
Qed.

(** On a predicate of 21 characters the label has 23. *)
Lemma truncation_lengths_witness :
  String.length "urn:epcis:bizLocation" = 21 ∧
  get_edge_label "urn:epcis:bizLocation" = "urn:epcis:bizLocatio..." ∧
  String.length (get_edge_label "urn:epcis:bizLocation") = 23.
Proof.
  split; [reflexivity|]. split; [reflexivity|].
  apply (truncation_lengths "urn:epcis:bizLocation").
  apply contains_false. reflexivity.
Defined.

(** ** Names of the sample resources *)

Section resource_names.
#[local] Arguments String.append !_ _ / : simpl nomatch.

Lemma replace_resource_head (rest : string) :
  PyStr.replace "resource" "Resource " ("resource" +:+ rest) =
    "Resource " +:+ PyStr.replace "resource" "Resource " rest.
Proof. unfold PyStr.replace. simpl. destruct rest; reflexivity. Qed.

(** X3: A URI ["ex:resource"] followed by a text that brings in no further
    ["ex:"] and no ["resource"] is named ["Resource "] followed by that
    text. *)
Theorem resource_display_name (rest : string) :
  ¬ occurs_in "ex:" ("resource" +:+ rest) →
  ¬ occurs_in "resource" rest →
  get_node_name ("ex:resource" +:+ rest) = "Resource " +:+ rest.
Proof.
  intros Hex Hres. unfold get_node_name.
  assert (PyStr.startswith "ex:" ("ex:resource" +:+ rest) = true) as ->.
  { apply startswith_spec. by exists ("resource" +:+ rest). }
  change ("ex:resource" +:+ rest) with ("ex:" +:+ "resource" +:+ rest).
  rewrite replace_marker_head, (replace_absent "ex:") by done.
  rewrite replace_resource_head. by rewrite replace_absent.
Qed.
End resource_names.

Lemma resource_display_name_witness :
  get_node_name "ex:resource42" = "Resource 42".
Proof.
  apply (resource_display_name "42"); apply contains_false; reflexivity.
Defined.

(** ** What the nodes of the graph are *)

Lemma add_node_canonical (u : string) (ns : ODict.t Node) :
  canonical ns → canonical (add_node u ns).
Proof.
  intros Hc. destruct (add_node_cases u ns) as [[_ ->]|[_ ->]]; [done|].
  apply Forall_app. split; [done|]. by constructor.
Qed.

Lemma convert_loop_canonical (bs : list binding) (st : conv_state) :
  canonical st.1 → canonical (convert_loop bs st).1.
Proof.
  revert st. induction bs as [|b bs IH]; intros st Hc; [done|].
  rewrite convert_loop_cons. apply IH.
  destruct (decide (qualifying b)) as [Hq|Hnq].
  - destruct st as [ns ls].
    destruct (loop_body_take ns ls b Hq) as (s & p & o & _ & _ & _ & _ & ->).
    simpl. by do 2 apply add_node_canonical.
  - by rewrite loop_body_skip.
Qed.

Lemma convert_nodes_canonical (bindings : list binding) :
  Forall (λ n, n = make_node (n_id n)) (nodes (convert_sparql_to_graph bindings)).
Proof.
  rewrite convert_nodes.
  assert (canonical (convert_loop bindings (ODict.empty, [])).1) as Hc.
  { apply convert_loop_canonical. constructor. }
  unfold canonical, ODict.values in *. rewrite Forall_fmap.
  eapply Forall_impl; [exact Hc|]. intros [k n] Hkn. simpl in *. by subst n.
Qed.

(** X4: The name, type and group of every node returned are those the helpers
    give for its id: a node says nothing of the binding or the role it was
    first met in, and a URI gets the same node in every graph. *)
Theorem node_attributes_from_id (bindings : list binding) :
  Forall (λ n, n_name n = get_node_name (n_id n) ∧
               n_type n = get_node_type (n_id n) ∧
               n_group n = get_node_group (n_id n))
    (nodes (convert_sparql_to_graph bindings)) ∧
  (∀ others n n',
     n ∈ nodes (convert_sparql_to_graph bindings) →
     n' ∈ nodes (convert_sparql_to_graph others) →
     n_id n = n_id n' → n = n').
Proof.
  split.
  - eapply Forall_impl; [apply convert_nodes_canonical|].
    intros n Hn. by rewrite Hn.
  - intros others n n' Hn Hn' Hid.
    pose proof (convert_nodes_canonical bindings) as Hc.
    pose proof (convert_nodes_canonical others) as Hc'.
    rewrite Forall_forall in Hc, Hc'.
    rewrite (Hc n Hn), (Hc' n' Hn'). by rewrite Hid.
Qed.

(** ["ex:Product"] is an object in one list and a subject in another; it
    has the same node in both graphs. *)
Lemma node_attributes_from_id_witness :
  make_node "ex:Product" ∈ nodes (convert_sparql_to_graph example_bindings) ∧
  n_type (make_node "ex:Product") = "product".
Proof.
  assert (make_node "ex:Product" ∈
          nodes (convert_sparql_to_graph example_bindings)) as Hin.
  { vm_compute. right. left. }
  split; [exact Hin|].
  pose proof (proj1 (node_attributes_from_id example_bindings)) as Hall.
  rewrite Forall_forall in Hall. destruct (Hall _ Hin) as (_ & -> & _).
  reflexivity.
Defined.

(** X5: Every node returned is an end of some link returned: the graph has no
    isolated node. *)
Theorem every_node_has_a_link (bindings : list binding) :
  Forall (λ n, ∃ l, l ∈ links (convert_sparql_to_graph bindings) ∧
                    (l_source l = n_id n ∨ l_target l = n_id n))
    (nodes (convert_sparql_to_graph bindings)).
Proof.
  apply Forall_forall. intros n Hn.
  assert (n_id n ∈ n_id <$> nodes (convert_sparql_to_graph bindings)) as Hid.
  { apply list_elem_of_fmap. by exists n. }
  rewrite convert_node_ids in Hid. unfold final_node_keys in Hid.
  apply convert_loop_keys in Hid as [Hid|(b & Hb & Hq & Hu)].
  { by apply elem_of_nil in Hid. }
  destruct (loop_body_take [] [] b Hq) as (s & p & o & Hs & _ & Ho & Hl & _).
  exists (make_link s p o). split.
  - rewrite convert_links, convert_loop_links. simpl.
    apply list_elem_of_omap. exists b. split; [|done].
    by apply list_elem_of_filter.
  - simpl. rewrite Hs, Ho in Hu. destruct Hu as [Hu|Hu]; simplify_eq; tauto.
Qed.

(** ** How large the graph is *)

Lemma add_node_length (u : string) (ns : ODict.t Node) :
  (length ns ≤ length (add_node u ns) ≤ S (length ns))%nat.
Proof.
  destruct (add_node_cases u ns) as [[_ ->]|[_ ->]]; [lia|].
  rewrite length_app. simpl. lia.
Qed.

Lemma convert_loop_sizes (bs : list binding) (st : conv_state) :
  (length (convert_loop bs st).1 + 2 * length st.2 ≤
   length st.1 + 2 * length (convert_loop bs st).2)%nat.
Proof.
  revert st. induction bs as [|b bs IH]; intros st; [simpl; lia|].
  rewrite convert_loop_cons. specialize (IH (loop_body st b)).
  destruct (decide (qualifying b)) as [Hq|Hnq].
  - destruct st as [ns ls].
    destruct (loop_body_take ns ls b Hq) as (s & p & o & _ & _ & _ & _ & Hstep).
    rewrite Hstep in *. simpl in *. rewrite length_app in IH. simpl in IH.
    pose proof (add_node_length s ns).
    pose proof (add_node_length o (add_node s ns)). lia.
  - by rewrite loop_body_skip in * by done.
Qed.

(** X6: There are at most twice as many nodes as links, and the graph has no
    node exactly when it has no link. *)
Theorem graph_size_bounds (bindings : list binding) :
  (length (nodes (convert_sparql_to_graph bindings)) ≤
     2 * length (links (convert_sparql_to_graph bindings)))%nat ∧
  (nodes (convert_sparql_to_graph bindings) = [] ↔
   links (convert_sparql_to_graph bindings) = []).
Proof.
  assert (length (nodes (convert_sparql_to_graph bindings)) ≤
          2 * length (links (convert_sparql_to_graph bindings)))%nat as Hle.
  { rewrite convert_nodes, convert_links. unfold ODict.values.
    rewrite length_fmap.
    pose proof (convert_loop_sizes bindings (ODict.empty, [])) as H.
    simpl in H. lia. }
  split; [exact Hle|]. split.
  - intros Hnodes.
    destruct (links (convert_sparql_to_graph bindings)) as [|l ls] eqn:Hlinks;
      [done|].
    assert (links_closed (convert_loop bindings (ODict.empty, [])).1
              (convert_loop bindings (ODict.empty, [])).2) as Hcl.
    { apply convert_loop_links_closed. constructor. }
    rewrite <- convert_links, Hlinks in Hcl. apply Forall_cons in Hcl as [[Hsrc _] _].
    fold (final_node_keys bindings) in Hsrc.
    rewrite <- convert_node_ids, Hnodes in Hsrc. by apply elem_of_nil in Hsrc.
  - intros Hlinks. rewrite Hlinks in Hle. simpl in Hle.
    by destruct (nodes (convert_sparql_to_graph bindings)); [|simpl in Hle; lia].
Qed.

(** ** Converting a longer list *)

Lemma convert_loop_app (bs1 bs2 : list binding) (st : conv_state) :
  convert_loop (bs1 ++ bs2) st = convert_loop bs2 (convert_loop bs1 st).
Proof. unfold convert_loop. apply fold_left_app. Qed.

(** X7: The graph of a list followed by another keeps the nodes of the first,
    in place, before any new one, none of which repeats an id already
    there; and its links are the links of the first followed by the links
    of the second. *)
Theorem convert_append (bs1 bs2 : list binding) :
  links (convert_sparql_to_graph (bs1 ++ bs2)) =
    links (convert_sparql_to_graph bs1) ++ links (convert_sparql_to_graph bs2) ∧
  ∃ added,
    nodes (convert_sparql_to_graph (bs1 ++ bs2)) =
      nodes (convert_sparql_to_graph bs1) ++ added ∧
    Forall (λ n, (n_id n ∉ n_id <$> nodes (convert_sparql_to_graph bs1)) ∧
                 appears_in (n_id n) bs2) added.
Proof.
  split.
  - rewrite !convert_links, !convert_loop_links. simpl.
    by rewrite filter_app, omap_app.
  - rewrite !convert_nodes, convert_loop_app.
    destruct (convert_loop_extends bs2 (convert_loop bs1 (ODict.empty, [])))
      as (added & Hadded).
    exists (ODict.values added). split.
    { rewrite Hadded. unfold ODict.values. by rewrite fmap_app. }
    assert (NoDup (n_id <$> ODict.values (convert_loop (bs1 ++ bs2)
                                            (ODict.empty, [])).1)) as Hnd.
    { rewrite <- convert_nodes, convert_node_ids.
      apply convert_loop_NoDup. constructor. }
    rewrite convert_loop_app, Hadded in Hnd. unfold ODict.values in Hnd.
    rewrite !fmap_app in Hnd. apply NoDup_app in Hnd as (_ & Hdisj & _).
    apply Forall_forall. intros n Hn.
    assert (n_id n ∈ n_id <$> added.*2) as Hid.
    { apply list_elem_of_fmap. by exists n. }
    assert (n_id n ∉ n_id <$> (convert_loop bs1 (ODict.empty, [])).1.*2) as Hnew.
    { intros Hold. by apply (Hdisj _ Hold). }
    split; [exact Hnew|].
    assert (n_id n ∈ n_id <$> nodes (convert_sparql_to_graph (bs1 ++ bs2))) as Hall.
    { rewrite convert_nodes, convert_loop_app, Hadded. unfold ODict.values.
      rewrite !fmap_app. apply elem_of_app. by right. }
    rewrite convert_node_ids in Hall. unfold final_node_keys in Hall.
    rewrite convert_loop_app in Hall.
    apply convert_loop_keys in Hall as [Hold|Happ]; [|done].
    destruct Hnew. fold (final_node_keys bs1) in Hold.
    rewrite <- convert_node_ids, convert_nodes in Hold. exact Hold.
Qed.

(** The example, then a binding that brings one new URI. *)
Lemma convert_append_witness :
  length (nodes (convert_sparql_to_graph (example_bindings ++ [epcis_binding])))
    = 4 ∧
  length (links (convert_sparql_to_graph (example_bindings ++ [epcis_binding])))
    = 2.
Proof.
  split; [vm_compute; reflexivity|].
  rewrite (proj1 (convert_append example_bindings [epcis_binding])).
  vm_compute. reflexivity.
Defined.

(** ** The order of the nodes *)

Lemma filter_not_in_nil (l : list string) : filter (.∉ []) l = l.
Proof.
  induction l as [|x l IH]; [done|].
  rewrite filter_cons_True by apply not_elem_of_nil. by rewrite IH.
Qed.

Lemma add_node_key_list (u : string) (ns : ODict.t Node) :
  ODict.keys (add_node u ns) =
    ODict.keys ns ++ filter (.∉ ODict.keys ns) [u].
Proof.
  destruct (add_node_cases u ns) as [[Hin ->]|[Hnotin ->]].
  - rewrite filter_cons_False by (by intros ?). by rewrite filter_nil, app_nil_r.
  - rewrite filter_cons_True by done. rewrite filter_nil.
    unfold ODict.keys. by rewrite fmap_app.
Qed.

(** Adding a key, then the first occurrences of a list: the first
    occurrences of the key followed by the list. *)
Lemma first_occurrences_step (K : list string) (x : string) (L : list string) :
  (K ++ filter (.∉ K) [x]) ++
    filter (.∉ K ++ filter (.∉ K) [x]) (first_occurrences L) =
  K ++ filter (.∉ K) (first_occurrences (x :: L)).
Proof.
  simpl. destruct (decide (x ∈ K)) as [Hin|Hnotin].
  - rewrite (filter_cons_False _ x []) by (by intros ?).
    rewrite filter_nil, !app_nil_r.
    rewrite (filter_cons_False _ x) by (by intros ?).
    f_equal. symmetry. apply list_filter_filter_l.
    intros y Hy ->. by apply Hy.
  - rewrite (filter_cons_True _ x []) by done. rewrite filter_nil.
    rewrite (filter_cons_True _ x) by done.
    rewrite <- app_assoc. simpl. do 2 f_equal.
    rewrite list_filter_filter. apply list_filter_iff.
    intros y. rewrite not_elem_of_app, list_elem_of_singleton. tauto.
Qed.

Lemma endpoints_cons_take (b : binding) (bs : list binding) (s o : string) :
  qualifying b → value_of b "s" = Some s → value_of b "o" = Some o →
  endpoints (b :: bs) = s :: o :: endpoints bs.
Proof.
  intros Hq Hs Ho. unfold endpoints.
  rewrite filter_cons_True by done. rewrite bind_cons. by rewrite Hs, Ho.
Qed.

Lemma endpoints_cons_skip (b : binding) (bs : list binding) :
  ¬ qualifying b → endpoints (b :: bs) = endpoints bs.
Proof. intros Hnq. unfold endpoints. by rewrite filter_cons_False. Qed.

Lemma convert_loop_key_order (bs : list binding) (st : conv_state) :
  ODict.keys (convert_loop bs st).1 =
    ODict.keys st.1 ++
    filter (.∉ ODict.keys st.1) (first_occurrences (endpoints bs)).
Proof.
  revert st. induction bs as [|b bs IH]; intros st.
  - simpl. by rewrite filter_nil, app_nil_r.
  - rewrite convert_loop_cons, IH.
    destruct (decide (qualifying b)) as [Hq|Hnq].
    + destruct st as [ns ls].
      destruct (loop_body_take ns ls b Hq) as (s & p & o & Hs & _ & Ho & _ & ->).
      rewrite (endpoints_cons_take b bs s o) by done.
      cbn [fst]. rewrite (add_node_key_list o), first_occurrences_step.
      rewrite (add_node_key_list s). apply first_occurrences_step.
    + by rewrite loop_body_skip, endpoints_cons_skip.
Qed.

(** X8: The nodes come in the order in which their URIs are first met, going
    through the qualifying bindings in order and taking the subject of
    each before its object. *)
Theorem nodes_in_order_of_first_appearance (bindings : list binding) :
  n_id <$> nodes (convert_sparql_to_graph bindings) =
    first_occurrences (endpoints bindings).
Proof.
  rewrite convert_node_ids. unfold final_node_keys.
  rewrite convert_loop_key_order. simpl. apply filter_not_in_nil.
Qed.

(** X9: A binding from a URI to itself gives one node, and one link from the
    node to itself. *)
Theorem self_loop_binding (b : binding) (u p : string) :
  value_of b "s" = Some u → value_of b "o" = Some u →
  value_of b "p" = Some p → u ≠ "" → p ≠ "" →
  convert_sparql_to_graph [b] =
    {| nodes := [make_node u]; links := [make_link u p u] |}.
Proof.
  intros Hs Ho Hp Hu Hpne.
  assert (qualifying b) as Hq.
  { split_and!; eexists; split; done. }
  unfold convert_sparql_to_graph, convert_loop. cbn [fold_left].
  destruct (loop_body_take ODict.empty [] b Hq)
    as (s' & p' & o' & Hs' & Hp' & Ho' & _ & ->).
  simplify_eq. unfold add_node. simpl. by rewrite String.eqb_refl.
Qed.

Lemma self_loop_binding_witness :
  length (nodes (convert_sparql_to_graph [self_binding])) = 1 ∧
  length (links (convert_sparql_to_graph [self_binding])) = 1.
Proof.
  rewrite (self_loop_binding self_binding "urn:epc:id:sgln:0614141.00777.0"
             "http://www.w3.org/2002/07/owl#sameAs");
    [split; reflexivity | try (vm_compute; reflexivity); discriminate ..].
Defined.

(** ** Verdicts of the checks *)

Lemma static_result_true (o : http_outcome) :
  static_result o = true ↔ ∃ body, o = Responded 200 body.
Proof.
  destruct o as [|status body]; simpl.
  - split; [discriminate | intros (? & ?); discriminate].
  - rewrite Z.eqb_eq. split; [intros ->; by eexists | intros (? & ?); congruence].
Qed.

Lemma sparql_result_some (o : http_outcome) (bindings : list binding) :
  sparql_result o = Some bindings ↔ o = Responded 200 (Some bindings).
Proof.
  destruct o as [|status body]; simpl; [split; discriminate|].
  destruct (Z.eqb_spec status 200) as [->|Hne].
  - split; [intros -> | intros ?]; congruence.
  - split; [discriminate | intros ?; congruence].
Qed.


(** X10: [test_static_files] and [test_sparql_api] each issue one request and
    no second one whatever the first gives; the former returns [True]
    exactly on a response of status 200, the latter the bindings of a
    response of status 200 whose body decodes, and [None] in every other
    case. *)
Theorem single_request_checks (env : nat → http_outcome) (w : world) :
  ((test_static_files env w).1 = true ↔
     ∃ body, env (served w) = Responded 200 body) ∧
  served (test_static_files env w).2 = S (served w) ∧
  requests_of (trace (test_static_files env w).2) =
    requests_of (trace w) ++ [HttpGet static_url] ∧
  (∀ bindings, (test_sparql_api env w).1 = Some bindings ↔
     env (served w) = Responded 200 (Some bindings)) ∧
  served (test_sparql_api env w).2 = S (served w) ∧
  requests_of (trace (test_sparql_api env w).2) =
    requests_of (trace w) ++ [HttpPost sparql_url sparql_query].
Proof.
  destruct (test_static_files_runs env w) as (w1 & -> & Hs1 & Ht1).
  destruct (test_sparql_api_runs env w) as (w2 & -> & Hs2 & Ht2).
  simpl in *. split_and!; try done; try lia.
  - apply static_result_true.
  - intros bindings. apply sparql_result_some.
Qed.





(** ** The data check of [debug_sparql.py] *)

Section debug_facts.
Import DebugSparql.

Lemma value_or_value_of (b : binding) (var dflt : string) :
  value_or b var dflt = default dflt (value_of b var).
Proof. unfold value_or. fold (get_value b var). by rewrite get_value_value_of. Qed.

Lemma mentions_epcis_spec (b : binding) :
  mentions_epcis b = true ↔ epcis_term_in b.
Proof.
  unfold mentions_epcis, epcis_term_in.
  rewrite !orb_true_iff, !contains_spec. split.
  - intros [[[[[H|H]|H]|H]|H]|H];
      [exists "s", "epcis" | exists "p", "epcis" | exists "o", "epcis"
      |exists "s", "cbv" | exists "p", "cbv" | exists "o", "cbv"];
      (split_and!; [| |exact H]); repeat constructor.
  - intros (var & term & Hvar & Hterm & H).
    repeat (apply elem_of_cons in Hvar as [->|Hvar]);
      [| | |by apply elem_of_nil in Hvar];
      (repeat (apply elem_of_cons in Hterm as [->|Hterm]);
       [| |by apply elem_of_nil in Hterm]); tauto.
Qed.

Lemma looks_real_spec (b : binding) :
  looks_real b = true ↔ not_sample_shaped b.
Proof.
  unfold looks_real, not_sample_shaped.
  rewrite !andb_true_iff, !negb_true_iff.
  assert (∀ p s, PyStr.startswith p s = false ↔ ¬ begins_with p s) as Hno.
  { intros p s. rewrite <- startswith_spec.
    by destruct (PyStr.startswith p s). }
  rewrite !Hno. tauto.
Qed.

Lemma has_epcis_spec (bindings : list binding) :
  has_epcis bindings = true ↔ ∃ b, b ∈ bindings ∧ epcis_term_in b.
Proof.
  unfold has_epcis. rewrite existsb_exists.
  by setoid_rewrite <- list_elem_of_In; setoid_rewrite mentions_epcis_spec.
Qed.

Lemma has_real_uris_spec (bindings : list binding) :
  has_real_uris bindings = true ↔ ∃ b, b ∈ bindings ∧ not_sample_shaped b.
Proof.
  unfold has_real_uris. rewrite existsb_exists.
  by setoid_rewrite <- list_elem_of_In; setoid_rewrite looks_real_spec.
Qed.

(** X13: [test_real_data] returns [True] exactly when the request and the
    decoding succeed, the body holds bindings, some binding holds ["epcis"]
    or ["cbv"] in its subject, predicate or object in any case of letters,
    and some binding, the same or another, does not have the shape of the
    sample data. A failed request, a body without bindings and an empty
    list all give [False]. *)
Theorem real_data_verdict (o : outcome) :
  (test_real_data o).1 = true ↔
  ∃ status_code data bindings,
    o = PostDecoded status_code data ∧ r_bindings data = Some bindings ∧
    (∃ b, b ∈ bindings ∧ epcis_term_in b) ∧
    (∃ b, b ∈ bindings ∧ not_sample_shaped b).
Proof.
  destruct o as [|status_code data]; simpl.
  - split; [discriminate | intros (? & ? & ? & ? & _); discriminate].
  - rewrite andb_true_iff, has_epcis_spec, has_real_uris_spec. split.
    + intros [Hepcis Hreal]. exists status_code, data.
      destruct (r_bindings data) as [bindings|]; simpl in *.
      * by exists bindings.
      * destruct Hepcis as (b & Hb & _). by apply elem_of_nil in Hb.
    + intros (status' & data' & bindings & Ho & Hbs & Hepcis & Hreal).
      simplify_eq. by rewrite Hbs.
Qed.

(** A body with one binding of an EPCIS store passes; the bindings of the
    worked example, sample data, do not. *)
Lemma real_data_verdict_witness :
  (test_real_data (PostDecoded 200
     {| r_status := Some "success"; r_query_type := Some "select";
        r_execution_time_ms := Some "3";
        r_bindings := Some [epcis_binding] |})).1 = true ∧
  (test_real_data (PostDecoded 200
     {| r_status := Some "success"; r_query_type := Some "select";
        r_execution_time_ms := Some "3";
        r_bindings := Some example_bindings |})).1 = false.
Proof.
  split.
  - apply (proj2 (real_data_verdict _)). do 3 eexists.
    split; [reflexivity|]. split; [reflexivity|]. split.
    + exists epcis_binding. split; [by left|].
      exists "o", "epcis". split_and!; [repeat constructor ..|].
      apply contains_spec. vm_compute. reflexivity.
    + exists epcis_binding. split; [by left|].
      apply looks_real_spec. vm_compute. reflexivity.
  - apply not_true_is_false. intros Htrue.
    apply (proj1 (real_data_verdict _)) in Htrue
      as (st & data & bindings & Ho & Hbs & _ & (b & Hb & Hreal)).
    simplify_eq. simpl in Hbs. simplify_eq.
    apply list_elem_of_singleton in Hb as ->.
    apply looks_real_spec in Hreal. vm_compute in Hreal. discriminate Hreal.
Defined.

(** X14: A binding that lacks the values of [s], [p] and [o] altogether counts
    as real data: the empty text put in their place begins with none of
    the sample prefixes, so the list it is in has "real URIs". *)
Theorem fieldless_binding_looks_real (bindings : list binding) (b : binding) :
  b ∈ bindings →
  value_of b "s" = None → value_of b "p" = None → value_of b "o" = None →
  has_real_uris bindings = true ∧ mentions_epcis b = false.
Proof.
  intros Hb Hs Hp Ho. split.
  - apply has_real_uris_spec. exists b. split; [done|].
    apply looks_real_spec. unfold looks_real.
    by rewrite !value_or_value_of, Hs, Hp, Ho.
  - unfold mentions_epcis. by rewrite !value_or_value_of, Hs, Hp, Ho.
Qed.

Lemma fieldless_binding_looks_real_witness :
  has_real_uris [∅] = true ∧ mentions_epcis ∅ = false.
Proof.
  apply (fieldless_binding_looks_real [∅] ∅); [by left | reflexivity ..].
Defined.

Lemma sample_lines_are_samples (l : list (nat * binding)) :
  List.filter is_sample (sample_line <$> l) = sample_line <$> l.
Proof.
  induction l as [|[i b] l IH]; [done|]. csimpl. by rewrite IH.
Qed.

Lemma enumerate_length {A} (l : list A) : length (enumerate l) = length l.
Proof. unfold enumerate. rewrite length_zip, length_seq. lia. Qed.

(** X15: [test_real_data] prints one sample line for each of the first five
    bindings: as many as there are bindings, and never more than five. *)
Theorem real_data_sample_lines (status_code : Z) (data : reply) :
  length (List.filter is_sample
            (test_real_data (PostDecoded status_code data)).2) =
    min 5 (length (default [] (r_bindings data))).
Proof.
  simpl. rewrite List.filter_app, sample_lines_are_samples.
  rewrite length_app, length_fmap, enumerate_length, length_take.
  by destruct (has_epcis _ && has_real_uris _), (has_real_uris _);
    simpl; rewrite Nat.add_0_r.
Qed.

End debug_facts.
